(** * Request throttling of the podcast-automation API

    A shallow embedding of [src/backend/api/throttling.py] (class
    [CustomThrottle]) and of the helper [cache_result] of
    [src/backend/common/utils.py], with the properties of the throttle
    stated and proved over it. Around them: the audio file checks of
    [common/validators.py] and [common/utils.py], the version reader and
    the request counter of [api/versioning.py], and the schema view of
    [api/schema.py] that asks the throttle.

    Conventions of the embedding:
    - Python [str] values are [string]s of ASCII text; characters above
      127 are kept but are classified neither as digits nor as whitespace.
    - Python [int] is [Z]; the interpreter's optional limit on the number
      of digits converted between [int] and [str] is not modelled.
    - Timestamps ([time.time()], a float) are exact rationals [Q]; no
      statement below depends on rounding.
    - Only exceptions deriving from [Exception] are modelled. *)

From Stdlib Require Import ZArith QArith Ascii String DecimalString DecimalPos Lia.
From stdpp Require Import base option list strings gmap sorting.

Local Open Scope Z_scope.
Local Open Scope string_scope.

(** ** Exceptions and results *)

Inductive exn : Type :=
  | TypeError
  | ValueError
  | AttributeError
  | ValidationError (message : string)   (* common/exceptions.py *)
  | OtherException (name : string).      (* any other subclass of Exception *)

Inductive result (A : Type) : Type :=
  | Ok (a : A)
  | Raise (e : exn).
Arguments Ok {A} a.
Arguments Raise {A} e.

#[global] Instance result_ret : MRet result := fun _ a => Ok a.
#[global] Instance result_bind : MBind result := fun _ _ f m =>
  match m with
  | Ok a => f a
  | Raise e => Raise e
  end.

(** ** The Python built-ins the throttle calls *)

Module Py.

(** [None] or a [str]: the values a rate, a header or an address takes. *)
Inductive pystr : Type :=
  | PyNone
  | PyStr (s : string).

(** Truth value of [None] and of a [str]. *)
Definition truthy (v : pystr) : bool :=
  match v with
  | PyNone => false
  | PyStr "" => false
  | PyStr _ => true
  end.

(** [str(v)], as [str.format] and f-strings render a field. *)
Definition str (v : pystr) : string :=
  match v with
  | PyNone => "None"
  | PyStr s => s
  end.

(** [str(n)] for an [int]: a minus sign when negative, then the decimal
    digits without leading zeros. *)
Definition str_int (n : Z) : string := NilZero.string_of_int (Z.to_int n).

(** [s.split(sep)] for a one-character separator: every occurrence
    splits, so the result has one more piece than there are separators. *)
Fixpoint split (sep : ascii) (s : string) : list string :=
  match s with
  | EmptyString => [EmptyString]
  | String c rest =>
      if Ascii.eqb c sep then EmptyString :: split sep rest
      else match split sep rest with
           | piece :: pieces => String c piece :: pieces
           | [] => [String c EmptyString]
           end
  end.

(** Whitespace skipped by [int()] around an ASCII literal. *)
Definition is_space (c : ascii) : bool :=
  let n := N_of_ascii c in
  ((9 <=? n) && (n <=? 13) || (n =? 32))%N.

(** Whitespace removed by [str.strip()]: [str.isspace] on ASCII. *)
Definition isspace (c : ascii) : bool :=
  let n := N_of_ascii c in
  ((9 <=? n) && (n <=? 13) || (28 <=? n) && (n <=? 32))%N.

Fixpoint lstrip (s : string) : string :=
  match s with
  | EmptyString => EmptyString
  | String c rest => if isspace c then lstrip rest else s
  end.

Fixpoint rstrip (s : string) : string :=
  match s with
  | EmptyString => EmptyString
  | String c rest =>
      match rstrip rest with
      | EmptyString => if isspace c then EmptyString else String c EmptyString
      | kept => String c kept
      end
  end.

Definition strip (s : string) : string := rstrip (lstrip s).

(** One decimal digit, as the constructor that prepends it. *)
Definition digit_of (c : ascii) : option (Decimal.uint -> Decimal.uint) :=
  match c with
  | "0"%char => Some Decimal.D0 | "1"%char => Some Decimal.D1
  | "2"%char => Some Decimal.D2 | "3"%char => Some Decimal.D3
  | "4"%char => Some Decimal.D4 | "5"%char => Some Decimal.D5
  | "6"%char => Some Decimal.D6 | "7"%char => Some Decimal.D7
  | "8"%char => Some Decimal.D8 | "9"%char => Some Decimal.D9
  | _ => None
  end.

Fixpoint all_space (s : string) : bool :=
  match s with
  | EmptyString => true
  | String c rest => is_space c && all_space rest
  end.

Fixpoint skip_space (s : string) : string :=
  match s with
  | EmptyString => EmptyString
  | String c rest => if is_space c then skip_space rest else s
  end.

Inductive scan_state : Type := AtStart | AfterDigit | AfterUnderscore.

(** The digits of an integer literal: a digit first, single underscores
    only between digits, then nothing but whitespace up to the end. *)
Fixpoint scan_digits (st : scan_state) (s : string) : option Decimal.uint :=
  match s with
  | EmptyString =>
      match st with AfterDigit => Some Decimal.Nil | _ => None end
  | String c rest =>
      match digit_of c with
      | Some d => d <$> scan_digits AfterDigit rest
      | None =>
          match st with
          | AfterDigit =>
              if Ascii.eqb c "_" then scan_digits AfterUnderscore rest
              else if all_space s then Some Decimal.Nil else None
          | _ => None
          end
      end
  end.

(** [int(s)] in base ten: optional surrounding whitespace, an optional
    sign directly before the digits, leading zeros allowed. [None]
    stands for [ValueError]. *)
Definition int_literal (s : string) : option Z :=
  match skip_space s with
  | String "+" digits => Z.of_uint <$> scan_digits AtStart digits
  | String "-" digits => Z.opp <$> (Z.of_uint <$> scan_digits AtStart digits)
  | digits => Z.of_uint <$> scan_digits AtStart digits
  end.

Definition int (s : string) : result Z :=
  match int_literal s with
  | Some n => Ok n
  | None => Raise ValueError
  end.

End Py.
Import Py.

(** ** Values, the backing store and the effect monad *)

(** The values that reach the throttle's [history]: the [bool] that
    [cache_result] returns, the list of timestamps the window check is
    written for, and the [{}] of [__init__]. *)
Inductive pyval : Type :=
  | PBool (b : bool)
  | PList (ts : list Q)
  | PEmptyDict.

(** The backing key/value store: prefixed key to value and time-to-live. *)
Abbreviation Store := (gmap string (pyval * Z)).

(** Code that may raise and may change the store. *)
Definition M (A : Type) : Type := Store -> result A * Store.

#[global] Instance M_ret : MRet M := fun _ a σ => (Ok a, σ).
#[global] Instance M_bind : MBind M := fun _ _ f m σ =>
  match m σ with
  | (Ok a, σ') => f a σ'
  | (Raise e, σ') => (Raise e, σ')
  end.

Definition lift {A : Type} (r : result A) : M A := fun σ => (r, σ).

(** [try: body except Exception: handler]. *)
Definition try_except {A : Type} (body : M A) (handler : exn -> M A) : M A :=
  fun σ =>
    match body σ with
    | (Raise e, σ') => handler e σ'
    | done => done
    end.

(** [cache_instance.set(key, value, ttl)]: the cache client that
    [cache_result] is written around. *)
Definition Backend : Type := string -> pyval -> Z -> M unit.

(** ** common/utils.py *)

Module Utils.

Definition CACHE_PREFIX : string := "podcast_automation:".
Definition CACHE_TTL_SECONDS : Z := 3600.   (* common/constants.py *)

(** The body of the [try] prefixes the key, picks the time-to-live and
    returns [True]; any exception in it is answered [False]. The source
    leaves the call to the cache client as a comment at the place where
    the client is to be injected; [cache_instance] stands for that client,
    and [no_backend] below is the function exactly as it is shipped. *)
Definition cache_result (cache_instance : Backend)
    (key : string) (value : pyval) (ttl : option Z) : M bool :=
  try_except
    (let prefixed_key := CACHE_PREFIX ++ key in
     let ttl_seconds := default CACHE_TTL_SECONDS ttl in
     _ ← cache_instance prefixed_key value ttl_seconds;
     mret true)
    (fun _ => mret false).

(** The module as shipped: nothing is injected, nothing is stored. *)
Definition no_backend : Backend := fun _ _ _ => mret tt.

(** A client that keeps what it is given, and one that is unreachable. *)
Definition dict_backend : Backend :=
  fun key value ttl σ => (Ok tt, <[key := (value, ttl)]> σ).
Definition down_backend : Backend :=
  fun _ _ _ => lift (Raise (OtherException "ConnectionError")).

End Utils.
Import Utils.

(** ** api/throttling.py *)

Module Throttling.

Record User : Type := { is_authenticated : bool; id : Z }.
Record Request : Type := { user : User; META : gmap string string }.

(** [META.get(key)] *)
Definition get (d : gmap string string) (key : string) : pystr :=
  match d !! key with
  | Some v => PyStr v
  | None => PyNone
  end.

(** The table of named rates. The source reads the module-level
    [DEFAULT_THROTTLE_RATES]; it is configuration, so the functions
    below take the table as [rates]. *)
Record ThrottleRates : Type := { user_rate : pystr; anon_rate : pystr }.

Definition DEFAULT_THROTTLE_RATES : ThrottleRates :=
  {| user_rate := PyStr "100/hour"; anon_rate := PyStr "10/hour" |}.

Record CustomThrottle : Type := {
  rate : pystr;
  ident : option pystr;     (* not set before the first allow_request *)
  history : pyval
}.

(** [__init__] *)
Definition init : CustomThrottle :=
  {| rate := PyNone; ident := None; history := PEmptyDict |}.

(** ['throttle_{ident}_{rate}'.format(ident=..., rate=...)] *)
Definition cache_format (ident rate : pystr) : string :=
  "throttle_" ++ str ident ++ "_" ++ str rate.

(** [pieces[0]] *)
Definition first_item (pieces : list string) : result string :=
  match pieces with
  | piece :: _ => Ok piece
  | [] => Raise (OtherException "IndexError")
  end.

Definition get_client_ip (request : Request) : result pystr :=
  let x_forwarded_for := get (META request) "HTTP_X_FORWARDED_FOR" in
  if truthy x_forwarded_for then
    entry ← first_item (split "," (str x_forwarded_for));
    mret (PyStr (strip entry))
  else
    mret (get (META request) "REMOTE_ADDR").

Definition get_ident (request : Request) : result pystr :=
  if is_authenticated (user request) then
    mret (PyStr (str_int (id (user request))))
  else
    get_client_ip request.

Definition get_rate (rates : ThrottleRates) (request : Request) : pystr :=
  if is_authenticated (user request) then user_rate rates
  else anon_rate rates.

(** [num, period = rate.split('/')] *)
Definition unpack2 (rate : pystr) : result (string * string) :=
  match rate with
  | PyNone => Raise AttributeError
  | PyStr s =>
      match split "/" s with
      | [num; period] => Ok (num, period)
      | _ => Raise ValueError
      end
  end.

Definition period_seconds (period : string) : result Z :=
  if String.eqb period "second" then Ok 1
  else if String.eqb period "minute" then Ok 60
  else if String.eqb period "hour" then Ok 3600
  else if String.eqb period "day" then Ok 86400
  else Raise (ValidationError ("Invalid rate period: " ++ period)).

Definition parse_rate (rate : pystr) : result (Z * Z) :=
  let body :=
    '(num, period) ← unpack2 rate;
    num ← int num;
    period ← period_seconds period;
    mret (num, period) in
  match body with
  | Raise ValueError | Raise AttributeError =>
      Raise (ValidationError ("Invalid rate format: " ++ str rate))
  | other => other
  end.

(** [history.pop()] while [history and history[-1] <= now - period], on a
    list; every round removes one item, so [length] rounds are enough. *)
Fixpoint pop_expired (rounds : nat) (cutoff : Q) (ts : list Q) : list Q :=
  match rounds with
  | O => ts
  | S rounds' =>
      match last ts with
      | Some oldest =>
          if Qle_bool oldest cutoff
          then pop_expired rounds' cutoff (removelast ts)
          else ts
      | None => ts
      end
  end.

(** The pruning loop on whatever [history] holds. *)
Definition prune (history : pyval) (now : Q) (period : Z) : result pyval :=
  match history with
  | PBool true => Raise TypeError            (* history[-1] on a bool *)
  | PBool false | PEmptyDict => Ok history   (* falsy: no iteration *)
  | PList ts =>
      Ok (PList (pop_expired (length ts) (now - inject_Z period) ts))
  end.

(** [len(history)] *)
Definition len (history : pyval) : result Z :=
  match history with
  | PBool _ => Raise TypeError
  | PList ts => Ok (Z.of_nat (length ts))
  | PEmptyDict => Ok 0
  end.

(** [history.insert(0, now)] *)
Definition insert_first (history : pyval) (now : Q) : result pyval :=
  match history with
  | PList ts => Ok (PList (now :: ts))
  | PBool _ | PEmptyDict => Raise AttributeError
  end.

(** Lines 173-190 of [allow_request]: prune, compare, record. *)
Definition check_window (cache_instance : Backend) (cache_key : string)
    (history : pyval) (now : Q) (num_requests period : Z) : M bool :=
  history ← lift (prune history now period);
  size ← lift (len history);
  if (num_requests <=? size)%Z then mret false
  else
    history ← lift (insert_first history now);
    _ ← cache_result cache_instance cache_key history (Some period);
    mret true.

(** The [try] block of [allow_request]; [now] is the reading of
    [self.timer()]. *)
Definition allow_request_try (cache_instance : Backend) (cache_key : string)
    (now : Q) (num_requests period : Z) : M bool :=
  try_except
    (history ← cache_result cache_instance cache_key (PList []) (Some period);
     check_window cache_instance cache_key (PBool history) now
       num_requests period)
    (fun _ => mret true).

Definition allow_request (rates : ThrottleRates) (cache_instance : Backend)
    (self : CustomThrottle) (request : Request) (now : Q) (σ : Store)
    : result bool * CustomThrottle * Store :=
  let self := {| rate := get_rate rates request;
                 ident := ident self; history := history self |} in
  if negb (truthy (rate self)) then (Ok true, self, σ)
  else
    match get_ident request with
    | Raise e => (Raise e, self, σ)
    | Ok who =>
        let self := {| rate := rate self;
                       ident := Some who; history := history self |} in
        match parse_rate (rate self) with
        | Raise e => (Raise e, self, σ)
        | Ok (num_requests, period) =>
            let cache_key := cache_format who (rate self) in
            let '(answer, σ') :=
              allow_request_try cache_instance cache_key now
                num_requests period σ in
            (answer, self, σ')
        end
    end.

(** [a < b] on timestamps. *)
Definition Qlt_bool (a b : Q) : bool := negb (Qle_bool b a).

(** Truth value of [self.history]. *)
Definition nonempty (history : pyval) : bool :=
  match history with
  | PBool b => b
  | PList ts => negb (bool_decide (ts = []))
  | PEmptyDict => false
  end.

(** [self.history[-1]] *)
Definition last_item (history : pyval) : result Q :=
  match history with
  | PList ts =>
      match last ts with
      | Some oldest => Ok oldest
      | None => Raise (OtherException "IndexError")
      end
  | PBool _ => Raise TypeError
  | PEmptyDict => Raise (OtherException "KeyError")
  end.

(** [wait]; [None] is Python's [None] and [now] the reading of
    [self.timer()]. *)
Definition wait (self : CustomThrottle) (now : Q) : result (option Q) :=
  if negb (nonempty (history self)) then Ok None
  else
    '(num_requests, period) ← parse_rate (rate self);
    oldest_request ← last_item (history self);
    let wait_time := (oldest_request + inject_Z period - now)%Q in
    mret (if Qlt_bool 0 wait_time then Some wait_time else None).

(** One throttle instance serving requests one after the other, as the
    schema view does; each call comes with its clock reading. *)
Fixpoint serve (rates : ThrottleRates) (cache_instance : Backend)
    (self : CustomThrottle) (σ : Store) (calls : list (Request * Q))
    : list (result bool) * CustomThrottle * Store :=
  match calls with
  | [] => ([], self, σ)
  | (request, now) :: later =>
      let '(answer, self', σ') :=
        allow_request rates cache_instance self request now σ in
      let '(answers, self'', σ'') :=
        serve rates cache_instance self' σ' later in
      (answer :: answers, self'', σ'')
  end.

End Throttling.
Import Throttling.

(** ** Vocabulary of the statements *)

(** The fixed table of period names. *)
Definition period_table : list (string * Z) :=
  [("second", 1); ("minute", 60); ("hour", 3600); ("day", 86400)].

(** The rate strings of the documented form: the decimal rendering of a
    positive integer, a slash, a period name of the table. *)
Definition documented_form (rate : string) : Prop :=
  exists (N : Z) (period : string) (seconds : Z),
    0 < N /\ In (period, seconds) period_table /\
    rate = str_int N ++ "/" ++ period.

(** The three ways in which [parse_rate] finds a rate string malformed. *)
Inductive malformed (rate : string) : Prop :=
  | wrong_token_count :
      length (split "/" rate) <> 2%nat -> malformed rate
  | count_not_integer (num period : string) :
      split "/" rate = [num; period] -> int_literal num = None ->
      malformed rate
  | period_unknown (num period : string) :
      split "/" rate = [num; period] ->
      (forall seconds, ~ In (period, seconds) period_table) ->
      malformed rate.

(** The part of [s] before the first [sep]: its first [sep]-separated
    entry. *)
Fixpoint up_to (sep : ascii) (s : string) : string :=
  match s with
  | EmptyString => EmptyString
  | String c rest =>
      if Ascii.eqb c sep then EmptyString else String c (up_to sep rest)
  end.

(** The identity of an unauthenticated request as the specification words
    it: the first entry of the forwarded-for header when the header is
    present, else the remote address, else the empty string. *)
Definition resolve_identity_spec (request : Request) : string :=
  match META request !! "HTTP_X_FORWARDED_FOR" with
  | Some header => strip (up_to "," header)
  | None => default "" (META request !! "REMOTE_ADDR")
  end.

(** An unauthenticated request that carries only its remote address. *)
Definition anonymous (address : string) : Request :=
  {| user := {| is_authenticated := false; id := 0 |};
     META := {["REMOTE_ADDR" := address]} |}.

(** The instance once [allow_request] has set [rate] and [ident]. *)
Definition seen (rates : ThrottleRates) (self : CustomThrottle)
    (request : Request) (who : pystr) : CustomThrottle :=
  {| rate := get_rate rates request; ident := Some who;
     history := history self |}.

(** [c in s] *)
Fixpoint occurs (c : ascii) (s : string) : bool :=
  match s with
  | EmptyString => false
  | String x rest => Ascii.eqb x c || occurs c rest
  end.

(** ** More built-ins: [str.lower], [str.join], [os.path.splitext] *)

Module PyPath.

(** [c.lower()] on ASCII. *)
Definition lower_char (c : ascii) : ascii :=
  let n := N_of_ascii c in
  if ((65 <=? n) && (n <=? 90))%N then ascii_of_N (n + 32) else c.

Fixpoint lower (s : string) : string :=
  match s with
  | EmptyString => EmptyString
  | String c rest => String (lower_char c) (lower rest)
  end.

(** [sep.join(pieces)] *)
Fixpoint join (sep : string) (pieces : list string) : string :=
  match pieces with
  | [] => ""
  | [piece] => piece
  | piece :: more => piece ++ sep ++ join sep more
  end.

(** [x in pieces] *)
Definition member (x : string) (pieces : list string) : bool :=
  existsb (String.eqb x) pieces.

(** [s] cut in front of its last [c]; [None] when [c] does not occur. *)
Fixpoint cut_at_last (c : ascii) (s : string) : option (string * string) :=
  match s with
  | EmptyString => None
  | String x rest =>
      match cut_at_last c rest with
      | Some (before, from) => Some (String x before, from)
      | None => if Ascii.eqb x c then Some (EmptyString, s) else None
      end
  end.

(** Whether the last [/]-separated component of [s] has a character other
    than the period; [seen] is the answer for what was read so far. *)
Fixpoint has_stem (seen : bool) (s : string) : bool :=
  match s with
  | EmptyString => seen
  | String x rest =>
      if Ascii.eqb x "/" then has_stem false rest
      else if Ascii.eqb x "." then has_stem seen rest
      else has_stem true rest
  end.

(** [os.path.splitext(p)] on POSIX: the extension starts at the last
    period of the last component, unless only periods come before it
    there. *)
Definition splitext (p : string) : string * string :=
  match cut_at_last "." p with
  | Some (root, ext) =>
      if negb (occurs "/" ext) && has_stem false root then (root, ext)
      else (p, "")
  | None => (p, "")
  end.

End PyPath.
Import PyPath.

(** ** common/validators.py and the other half of common/utils.py *)

Module Validators.

(* common/constants.py *)
Definition SUPPORTED_AUDIO_FORMATS : list string := [".mp3"; ".wav"; ".aac"].
Definition MAX_AUDIO_FILE_SIZE_MB : Z := 500.

(** How a validator call ends: it returns, or it raises one of the two
    exceptions of common/exceptions.py with its message. *)
Inductive outcome (A : Type) : Type :=
  | Returned (a : A)
  | RaisedValidationError (message : string)
  | RaisedFileSizeLimitExceeded (message : string).
Arguments Returned {A} a.
Arguments RaisedValidationError {A} message.
Arguments RaisedFileSizeLimitExceeded {A} message.

Definition validate_audio_file (file_name : string) (file_size_mb : Z)
    : outcome bool :=
  let '(_, file_extension) := splitext (lower file_name) in
  if negb (member file_extension SUPPORTED_AUDIO_FORMATS) then
    RaisedValidationError
      ("Unsupported audio format: " ++ file_extension ++ ". " ++
       "Supported formats are: " ++ join ", " SUPPORTED_AUDIO_FORMATS)
  else if (MAX_AUDIO_FILE_SIZE_MB <? file_size_mb)%Z then
    RaisedFileSizeLimitExceeded
      ("File size (" ++ str_int file_size_mb ++
       "MB) exceeds the maximum allowed size " ++
       "of " ++ str_int MAX_AUDIO_FILE_SIZE_MB ++ "MB")
  else Returned true.

(** common/utils.py: the first handler takes [ValidationError], the
    second every other exception, here [FileSizeLimitExceeded]. *)
Definition process_audio_file (file_name : string) (file_size_mb : Z)
    : result bool :=
  match validate_audio_file file_name file_size_mb with
  | Returned _ => Ok true
  | RaisedValidationError message =>
      Raise (ValidationError ("Failed to process audio file: " ++ message))
  | RaisedFileSizeLimitExceeded message =>
      Raise (ValidationError
               ("Unexpected error during audio file processing: " ++ message))
  end.

End Validators.
Import Validators.

(** ** api/versioning.py *)

Module Versioning.

Definition DEFAULT_API_VERSION : string := "v1".
Definition SUPPORTED_API_VERSIONS : list string := ["v1"; "v2"].
Definition MAX_REQUESTS_PER_MINUTE : Z := 60.
Definition REQUEST_WINDOW_SECONDS : Z := 60.

Definition validate_version (version : string) : bool :=
  member version SUPPORTED_API_VERSIONS.

(** [\d] on ASCII. *)
Definition is_digit (c : ascii) : bool :=
  let n := N_of_ascii c in ((48 <=? n) && (n <=? 57))%N.

(** The longest run of digits at the start of [s]: what [\d+] takes. *)
Fixpoint digits_prefix (s : string) : string :=
  match s with
  | EmptyString => EmptyString
  | String c rest =>
      if is_digit c then String c (digits_prefix rest) else EmptyString
  end.

(** What is left of [s] behind the prefix [p]. *)
Fixpoint after_prefix (p s : string) : option string :=
  match p, s with
  | EmptyString, _ => Some s
  | String a p', String b s' =>
      if Ascii.eqb a b then after_prefix p' s' else None
  | String _ _, EmptyString => None
  end.

(** The pattern [version=(v\d+)] matched at the start of [s]: group 1. *)
Definition match_here (s : string) : option string :=
  match after_prefix "version=v" s with
  | Some rest =>
      match digits_prefix rest with
      | EmptyString => None
      | digits => Some (String "v" digits)
      end
  | None => None
  end.

(** [re.search(r'version=(v\d+)', s)]: the leftmost match. *)
Fixpoint search (s : string) : option string :=
  match match_here s with
  | Some version => Some version
  | None =>
      match s with
      | EmptyString => None
      | String _ rest => search rest
      end
  end.

(** [headers] is [request.headers]; a missing [Accept] reads as [''], and
    the handler of the [try] returns the default as well. *)
Definition get_version_from_request (headers : gmap string string) : string :=
  let accept_header := default "" (headers !! "Accept") in
  match search accept_header with
  | Some version =>
      if validate_version version then version else DEFAULT_API_VERSION
  | None => DEFAULT_API_VERSION
  end.

(** [request.META.get('HTTP_X_FORWARDED_FOR', request.META.get('REMOTE_ADDR'))];
    [None] is Python's [None], which is a dictionary key like another. *)
Definition client_ip_of (request : Request) : option string :=
  match META request !! "HTTP_X_FORWARDED_FOR" with
  | Some forwarded => Some forwarded
  | None => META request !! "REMOTE_ADDR"
  end.

(** The module-level [request_history]. *)
Abbreviation History := (gmap (option string) (list Q)).

(** [allow_request]; [current_time] is the reading of [time.time()]. The
    history of a client seen for the first time starts empty; the pruned
    list is stored before the count is compared. *)
Definition allow_request (request : Request) (current_time : Q)
    (request_history : History) : bool * History :=
  let client_ip := client_ip_of request in
  let timestamps := default [] (request_history !! client_ip) in
  let kept :=
    List.filter
      (fun timestamp =>
         Qle_bool (current_time - timestamp) (inject_Z REQUEST_WINDOW_SECONDS))
      timestamps in
  let request_history := <[client_ip := kept]> request_history in
  if (MAX_REQUESTS_PER_MINUTE <=? Z.of_nat (length kept))%Z then
    (false, request_history)
  else
    (true, <[client_ip := (kept ++ [current_time])%list]> request_history).

(** Requests of one client at the given clock readings, in order. *)
Fixpoint serve (request : Request) (times : list Q) (request_history : History)
    : list bool * History :=
  match times with
  | [] => ([], request_history)
  | current_time :: later =>
      let '(answer, request_history') :=
        allow_request request current_time request_history in
      let '(answers, request_history'') :=
        serve request later request_history' in
      (answer :: answers, request_history'')
  end.

End Versioning.

(** ** api/schema.py: the view that asks the throttle *)

Module Schema.

(** How [generate_schema(request)] ends. It reads settings and a schema
    file, so it is a parameter here: it returns the schema text, raises
    [ValueError] (or a subclass) whose text is [message], or raises
    another exception. *)
Inductive generated : Type :=
  | Generated (schema_content : string)
  | NotAvailable (message : string)
  | Failed.

Inductive content : Type :=
  | SchemaContent (schema_content : string)
  | TooManyRequests (retry_after : option Q)
  | ErrorMessage (error : string).

Record Response : Type := { status_code : Z; body : content }.

(** The two handlers of [get_schema]: [ValueError] is answered 404 with
    its text (the [ValueError] of this model carries none), every other
    exception 500. *)
Definition on_error (e : exn) : Response :=
  match e with
  | ValueError => {| status_code := 404; body := ErrorMessage "" |}
  | _ => {| status_code := 500; body := ErrorMessage "Internal server error" |}
  end.

(** [SchemaView.get_schema]; [now] and [later] are the clock readings of
    [allow_request] and of [wait]. *)
Definition get_schema (rates : ThrottleRates) (cache_instance : Backend)
    (generate_schema : Request -> generated)
    (throttle : CustomThrottle) (request : Request) (now later : Q)
    (σ : Store) : Response * CustomThrottle * Store :=
  let '(answer, throttle, σ) :=
    allow_request rates cache_instance throttle request now σ in
  match answer with
  | Raise e => (on_error e, throttle, σ)
  | Ok false =>
      match get_ident request with
      | Raise e => (on_error e, throttle, σ)
      | Ok _ =>
          match wait throttle later with
          | Raise e => (on_error e, throttle, σ)
          | Ok retry_after =>
              ({| status_code := 429; body := TooManyRequests retry_after |},
               throttle, σ)
          end
      end
  | Ok true =>
      match generate_schema request with
      | Generated schema_content =>
          ({| status_code := 200; body := SchemaContent schema_content |},
           throttle, σ)
      | NotAvailable message =>
          ({| status_code := 404; body := ErrorMessage message |}, throttle, σ)
      | Failed => (on_error (OtherException "Exception"), throttle, σ)
      end
  end.

End Schema.

(** Clock readings that all lie within one request window of each other. *)
Definition within_window (times : list Q) : bool :=
  forallb
    (fun earlier =>
       forallb
         (fun later =>
            Qle_bool (later - earlier)
              (inject_Z Versioning.REQUEST_WINDOW_SECONDS))
         times)
    times.

(** No client of the history has more timestamps than the limit. *)
Definition bounded (request_history : Versioning.History) : Prop :=
  forall client timestamps,
    request_history !! client = Some timestamps ->
    (Z.of_nat (length timestamps) <= Versioning.MAX_REQUESTS_PER_MINUTE)%Z.

(** A window that lists its timestamps newest first, as [insert(0, now)]
    builds it under a clock that does not run backwards. *)
Definition newest_first (ts : list Q) : Prop :=
  StronglySorted (fun newer older => (older <= newer)%Q) ts.

(** The store holds no timestamp: every window in it is the empty list. *)
Definition holds_no_timestamp (σ : Store) : Prop :=
  forall key value ttl, σ !! key = Some (value, ttl) -> value = PList [].

Example int_samples :
  map int [" 1 "; "+1"; "-0"; "1_0"; "007"; "_1"; "1_"; "1__0"; "+ 1"; ""; "+"; "1 _"]
  = [Ok 1; Ok 1; Ok 0; Ok 10; Ok 7; Raise ValueError; Raise ValueError;
     Raise ValueError; Raise ValueError; Raise ValueError; Raise ValueError;
     Raise ValueError].
Proof. reflexivity. Qed.

Example split_samples :
  map (split "/") [""; "a//b"; "/"; "100/hour"]
  = [[""]; ["a"; ""; "b"]; [""; ""]; ["100"; "hour"]].
Proof. reflexivity. Qed.

Example strip_samples :
  map strip ["  10.0.0.1 "; String "028" "a" ++ String "031" ""; ""; "a b"]
  = ["10.0.0.1"; "a"; ""; "a b"].
Proof. reflexivity. Qed.

Example splitext_samples :
  map (fun p => splitext (lower p))
    ["a.mp3"; "A.MP3"; ".mp3"; "..mp3"; "dir/.mp3"; "dir.x/file"; "a.tar.gz";
     "a."; "a..mp3"; "x/.a.mp3"; ""; "a/b.c/d"; ".a.mp3"; "..."; "a/...mp3";
     "a.mp3/"]
  = [("a", ".mp3"); ("a", ".mp3"); (".mp3", ""); ("..mp3", "");
     ("dir/.mp3", ""); ("dir.x/file", ""); ("a.tar", ".gz"); ("a", ".");
     ("a.", ".mp3"); ("x/.a", ".mp3"); ("", ""); ("a/b.c/d", "");
     (".a", ".mp3"); ("...", ""); ("a/...mp3", ""); ("a.mp3/", "")].
Proof. reflexivity. Qed.

Example search_samples :
  map Versioning.search
    ["application/json; version=v1"; "version=v2"; "version=v20";
     "version=v9; version=v2"; "xversion=v2x"; "version=version=v2";
     "version=v"; "VERSION=v2"; ""; "version=v02"]
  = [Some "v1"; Some "v2"; Some "v20"; Some "v9"; Some "v2"; Some "v2";
     None; None; None; Some "v02"].
Proof. reflexivity. Qed.

Example join_sample :
  join ", " SUPPORTED_AUDIO_FORMATS = ".mp3, .wav, .aac".
Proof. reflexivity. Qed.

Example str_int_samples : map str_int [0; 7; 100; -5] = ["0"; "7"; "100"; "-5"].
Proof. reflexivity. Qed.

(** ** Facts about the built-ins *)

Section BuiltinFacts.

Lemma split_nonempty sep s : split sep s <> [].
Proof.
  destruct s as [|c rest]; simpl; [discriminate|].
  destruct (Ascii.eqb c sep); [discriminate|].
  destruct (split sep rest); discriminate.
Qed.

Lemma split_without_sep sep s : occurs sep s = false -> split sep s = [s].
Proof.
  induction s as [|c rest IH]; simpl; [reflexivity|].
  destruct (Ascii.eqb c sep); simpl; [discriminate|].
  intros Hrest. now rewrite (IH Hrest).
Qed.

Lemma split_at_first_sep sep a b :
  occurs sep a = false ->
  split sep (a ++ String sep b) = a :: split sep b.
Proof.
  induction a as [|c rest IH]; simpl.
  - now rewrite Ascii.eqb_refl.
  - destruct (Ascii.eqb c sep); simpl; [discriminate|].
    intros Hrest. now rewrite (IH Hrest).
Qed.

Lemma digits_avoid c d :
  digit_of c = None -> occurs c (NilEmpty.string_of_uint d) = false.
Proof.
  intros Hc. induction d as [|d IH|d IH|d IH|d IH|d IH|d IH|d IH|d IH|d IH|d IH];
    cbn [occurs NilEmpty.string_of_uint]; [reflexivity|..];
    rewrite IH, orb_false_r;
    match goal with
    | |- Ascii.eqb ?x c = false =>
        destruct (Ascii.eqb_spec x c) as [<-|]; [discriminate Hc|reflexivity]
    end.
Qed.

Lemma scan_after_digit d :
  scan_digits AfterDigit (NilEmpty.string_of_uint d) = Some d.
Proof. induction d; simpl; rewrite ?IHd; reflexivity. Qed.

Lemma int_literal_digits d :
  d <> Decimal.Nil ->
  int_literal (NilEmpty.string_of_uint d) = Some (Z.of_uint d).
Proof.
  destruct d; [congruence|..]; intros _;
    unfold int_literal; simpl; now rewrite scan_after_digit.
Qed.

Lemma int_literal_minus_digits d :
  d <> Decimal.Nil ->
  int_literal (String "-" (NilEmpty.string_of_uint d)) = Some (- Z.of_uint d).
Proof.
  destruct d; [congruence|..]; intros _;
    unfold int_literal; simpl; now rewrite scan_after_digit.
Qed.

Lemma of_uint_to_uint p : Z.of_uint (Pos.to_uint p) = Z.pos p.
Proof. unfold Z.of_uint. now rewrite DecimalPos.Unsigned.of_to. Qed.

Lemma string_of_to_uint p :
  NilZero.string_of_uint (Pos.to_uint p)
  = NilEmpty.string_of_uint (Pos.to_uint p).
Proof.
  pose proof (DecimalPos.Unsigned.to_uint_nonnil p) as Hp.
  now destruct (Pos.to_uint p).
Qed.

(** [int(str(n)) == n] *)
Lemma int_literal_str_int n : int_literal (str_int n) = Some n.
Proof.
  pose proof DecimalPos.Unsigned.to_uint_nonnil as Hnil.
  destruct n as [|p|p]; unfold str_int; simpl; [reflexivity|..];
    rewrite string_of_to_uint.
  - now rewrite int_literal_digits, of_uint_to_uint.
  - now rewrite int_literal_minus_digits, of_uint_to_uint.
Qed.

Lemma str_int_avoids c n :
  digit_of c = None -> c <> "-"%char -> occurs c (str_int n) = false.
Proof.
  intros Hc Hminus. destruct n as [|p|p]; unfold str_int;
    cbn [Z.to_int NilZero.string_of_int occurs].
  - exact (digits_avoid c (Decimal.D0 Decimal.Nil) Hc).
  - rewrite string_of_to_uint. now apply digits_avoid.
  - rewrite string_of_to_uint, digits_avoid, orb_false_r by assumption.
    destruct (Ascii.eqb_spec "-" c) as [<-|]; [congruence|reflexivity].
Qed.

End BuiltinFacts.

(** ** The rate parser *)

Section RateParser.

(** What [parse_rate] returns, token by token. *)
Lemma parse_rate_tokens rate num period :
  split "/" rate = [num; period] ->
  parse_rate (PyStr rate)
  = match int_literal num with
    | None => Raise (ValidationError ("Invalid rate format: " ++ rate))
    | Some n =>
        match period_seconds period with
        | Ok seconds => Ok (n, seconds)
        | Raise e => Raise e
        end
    end.
Proof.
  intros Hsplit. unfold parse_rate, unpack2, int. rewrite Hsplit. simpl.
  destruct (int_literal num); simpl; [|reflexivity].
  unfold period_seconds.
  repeat (match goal with
          | |- context [String.eqb ?a ?b] => destruct (String.eqb a b)
          end; simpl; try reflexivity).
Qed.

Lemma period_seconds_table period seconds :
  In (period, seconds) period_table -> period_seconds period = Ok seconds.
Proof.
  unfold period_table. simpl.
  intros [H|[H|[H|[H|[]]]]]; injection H as <- <-; reflexivity.
Qed.

Lemma period_seconds_unknown period :
  (forall seconds, ~ In (period, seconds) period_table) ->
  period_seconds period
  = Raise (ValidationError ("Invalid rate period: " ++ period)).
Proof.
  intros Hout. unfold period_seconds.
  repeat match goal with
  | |- context [String.eqb period ?name] =>
      destruct (String.eqb_spec period name) as [->|_];
        [exfalso; eapply Hout; unfold period_table; simpl; eauto 6|]
  end.
  reflexivity.
Qed.

Lemma period_names_have_no_slash period seconds :
  In (period, seconds) period_table -> occurs "/" period = false.
Proof.
  unfold period_table. simpl.
  intros [H|[H|[H|[H|[]]]]]; injection H as <- <-; reflexivity.
Qed.

(** Any integer in front of a known period is parsed back. *)
Lemma parse_rate_rendered N period seconds :
  In (period, seconds) period_table ->
  parse_rate (PyStr (str_int N ++ "/" ++ period)) = Ok (N, seconds).
Proof.
  intros Hin.
  rewrite (parse_rate_tokens _ (str_int N) period).
  - now rewrite int_literal_str_int, (period_seconds_table _ _ Hin).
  - change ("/" ++ period) with (String "/" period).
    rewrite split_at_first_sep by (now apply str_int_avoids).
    now rewrite (split_without_sep _ _ (period_names_have_no_slash _ _ Hin)).
Qed.

(** C3: for every positive integer [N] and every period name of the
    table, [parse_rate] applied to the string "N/period" returns [N]
    together with the table's seconds for that period: second 1,
    minute 60, hour 3600, day 86400. *)
Theorem parse_rate_positive_count N period seconds :
  0 < N ->
  In (period, seconds) period_table ->
  parse_rate (PyStr (str_int N ++ "/" ++ period)) = Ok (N, seconds).
Proof. intros _. apply parse_rate_rendered. Qed.

Lemma parse_rate_positive_count_witness :
  parse_rate (PyStr "100/hour") = Ok (100, 3600).
Proof.
  apply (parse_rate_positive_count 100 "hour" 3600); [lia|].
  unfold period_table. simpl. tauto.
Defined.

Lemma parse_rate_raises_validation rate e :
  parse_rate rate = Raise e -> exists message, e = ValidationError message.
Proof.
  unfold parse_rate, unpack2, int.
  destruct rate as [|s]; simpl; [intros [= <-]; eauto|].
  destruct (split "/" s) as [|num [|period [|extra more]]]; simpl;
    try (intros [= <-]; eauto).
  destruct (int_literal num); simpl; [|intros [= <-]; eauto].
  unfold period_seconds.
  repeat (match goal with
          | |- context [String.eqb ?a ?b] => destruct (String.eqb a b)
          end; simpl; try discriminate).
  intros [= <-]; eauto.
Qed.

(** The claim as worded fails: a zero count in front of a known period
    is not of the documented form, and [parse_rate] returns it. *)
Lemma zero_count_is_accepted :
  ~ (forall rate, ~ documented_form rate ->
       exists message, parse_rate (PyStr rate) = Raise (ValidationError message)).
Proof.
  intros Hclaim.
  assert (Hzero : parse_rate (PyStr "0/hour") = Ok (0, 3600)) by reflexivity.
  destruct (Hclaim "0/hour") as [message Hraise].
  - intros (N & period & seconds & HN & Hin & Heq).
    pose proof (parse_rate_rendered N period seconds Hin) as Hparsed.
    rewrite <- Heq, Hzero in Hparsed. injection Hparsed as HN0 _. lia.
  - rewrite Hzero in Hraise. discriminate.
Qed.

(** C4, amended: [parse_rate] raises [ValidationError] for every string
    that does not split into exactly two tokens at the slashes, whose
    count [int()] does not accept, or whose period is not in the table;
    the sign of the count is not checked, so a zero or negative count in
    front of a known period is returned as it is. *)
Theorem parse_rate_rejects_malformed :
  (forall rate, malformed rate ->
     exists message, parse_rate (PyStr rate) = Raise (ValidationError message))
  /\ (forall N period seconds,
        N <= 0 -> In (period, seconds) period_table ->
        parse_rate (PyStr (str_int N ++ "/" ++ period)) = Ok (N, seconds)).
Proof.
  split.
  - intros rate [Hcount | num period Hsplit Hnum | num period Hsplit Hperiod].
    + unfold parse_rate, unpack2.
      destruct (split "/" rate) as [|a [|b [|c more]]]; simpl in *;
        try (eexists; reflexivity).
      congruence.
    + rewrite (parse_rate_tokens _ _ _ Hsplit), Hnum. eauto.
    + rewrite (parse_rate_tokens _ _ _ Hsplit).
      destruct (int_literal num); [|eauto].
      rewrite (period_seconds_unknown _ Hperiod). eauto.
  - intros N period seconds _. apply parse_rate_rendered.
Qed.

Lemma parse_rate_rejects_malformed_witness :
  (exists message, parse_rate (PyStr "5/week") = Raise (ValidationError message))
  /\ parse_rate (PyStr "-5/day") = Ok (-5, 86400).
Proof.
  split.
  - apply (proj1 parse_rate_rejects_malformed "5/week").
    apply (period_unknown _ "5" "week"); [reflexivity|].
    intros seconds. unfold period_table. simpl.
    intros [H|[H|[H|[H|[]]]]]; discriminate H.
  - apply (proj2 parse_rate_rejects_malformed (-5) "day" 86400); [lia|].
    unfold period_table. simpl. tauto.
Defined.

End RateParser.

(** ** The cache helper *)

Section CacheHelper.

Variable cache_instance : Backend.

(** [cache_result] turns the outcome of the cache client into a bool. *)
Lemma cache_result_outcome key value ttl σ :
  cache_result cache_instance key value ttl σ
  = match cache_instance (CACHE_PREFIX ++ key) value
            (default CACHE_TTL_SECONDS ttl) σ with
    | (Ok _, σ') => (Ok true, σ')
    | (Raise _, σ') => (Ok false, σ')
    end.
Proof.
  unfold cache_result, try_except, mbind, M_bind, mret, M_ret.
  now destruct (cache_instance _ _ _ σ) as [[[]|e] σ'].
Qed.

End CacheHelper.

(** C9: [cache_result] never raises, whatever the key, the value and the
    time-to-live: it returns [True], or [False] exactly when an exception
    occurred inside it. The value it returns is a bool, never what is
    stored under the key, so the window fetch of the throttle,
    [cache_result(cache_key, [], period)], yields [True] and not a list of
    timestamps. *)
Theorem cache_result_returns_bool :
  (forall cache_instance key value ttl σ,
     exists b,
       (cache_result cache_instance key value ttl σ).1 = Ok b /\
       (b = false <->
        exists e, (cache_instance (CACHE_PREFIX ++ key) value
                     (default CACHE_TTL_SECONDS ttl) σ).1 = Raise e))
  /\ (forall cache_key period σ,
        cache_result no_backend cache_key (PList []) (Some period) σ
        = (Ok true, σ)).
Proof.
  split; [|reflexivity].
  intros cache_instance key value ttl σ. rewrite cache_result_outcome.
  destruct (cache_instance _ _ _ σ) as [[[]|e] σ']; simpl.
  - exists true. split; [reflexivity|].
    split; [discriminate|]. intros [e He]. discriminate He.
  - exists false. split; [reflexivity|]. split; eauto.
Qed.

(** ** Identity of the requester *)

Section Identity.

Lemma first_item_split sep s : first_item (split sep s) = Ok (up_to sep s).
Proof.
  induction s as [|c rest IH]; simpl; [reflexivity|].
  destruct (Ascii.eqb c sep); [reflexivity|].
  destruct (split sep rest) as [|piece pieces]; simpl in *.
  - discriminate IH.
  - now injection IH as ->.
Qed.

Lemma get_client_ip_value request :
  get_client_ip request
  = Ok match META request !! "HTTP_X_FORWARDED_FOR" with
       | Some (String _ _ as header) => PyStr (strip (up_to "," header))
       | _ => match META request !! "REMOTE_ADDR" with
              | Some address => PyStr address
              | None => PyNone
              end
       end.
Proof.
  unfold get_client_ip, get.
  destruct (META request !! "HTTP_X_FORWARDED_FOR") as [[|c header]|];
    try reflexivity.
  cbn [truthy str]. now rewrite first_item_split.
Qed.

Lemma get_ident_total request : exists who, get_ident request = Ok who.
Proof.
  unfold get_ident. destruct (is_authenticated (user request)).
  - eexists; reflexivity.
  - rewrite get_client_ip_value. eauto.
Qed.

(** The claim as worded fails: a request with neither header nor remote
    address is given [None], not the empty string. *)
Lemma unresolvable_identity_is_none :
  ~ (forall request,
       is_authenticated (user request) = false ->
       get_ident request = Ok (PyStr (resolve_identity_spec request))).
Proof.
  intros Hclaim.
  specialize (Hclaim {| user := {| is_authenticated := false; id := 0 |};
                        META := ∅ |} eq_refl).
  vm_compute in Hclaim. discriminate Hclaim.
Qed.

(** C8, amended: [get_ident] never raises. For an unauthenticated request
    it returns the first comma-separated entry of the forwarded-for
    header, trimmed of whitespace, when that header is present and not
    empty; otherwise the remote address; and when there is no remote
    address either it returns [None], not a string. *)
Theorem get_ident_resolves :
  (forall request, exists who, get_ident request = Ok who)
  /\ (forall request,
        is_authenticated (user request) = false ->
        get_ident request
        = Ok match META request !! "HTTP_X_FORWARDED_FOR" with
             | Some (String _ _ as header) => PyStr (strip (up_to "," header))
             | _ => match META request !! "REMOTE_ADDR" with
                    | Some address => PyStr address
                    | None => PyNone
                    end
             end).
Proof.
  split; [exact get_ident_total|].
  intros request Hanon. unfold get_ident. rewrite Hanon.
  apply get_client_ip_value.
Qed.

Lemma get_ident_resolves_witness :
  get_ident {| user := {| is_authenticated := false; id := 0 |};
               META := {["HTTP_X_FORWARDED_FOR" := " 10.0.0.1 , 10.0.0.2"]} |}
  = Ok (PyStr "10.0.0.1")
  /\ get_ident {| user := {| is_authenticated := false; id := 0 |};
                  META := {["HTTP_X_FORWARDED_FOR" := "";
                            "REMOTE_ADDR" := "198.51.100.4"]} |}
     = Ok (PyStr "198.51.100.4")
  /\ get_ident {| user := {| is_authenticated := false; id := 0 |};
                  META := ∅ |}
     = Ok PyNone.
Proof.
  split; [|split].
  - exact (proj2 get_ident_resolves
             {| user := {| is_authenticated := false; id := 0 |};
                META := {["HTTP_X_FORWARDED_FOR" := " 10.0.0.1 , 10.0.0.2"]} |}
             eq_refl).
  - exact (proj2 get_ident_resolves
             {| user := {| is_authenticated := false; id := 0 |};
                META := {["HTTP_X_FORWARDED_FOR" := "";
                          "REMOTE_ADDR" := "198.51.100.4"]} |}
             eq_refl).
  - exact (proj2 get_ident_resolves
             {| user := {| is_authenticated := false; id := 0 |};
                META := ∅ |} eq_refl).
Defined.

End Identity.

(** ** Admission *)

Section Admission.

Variable rates : ThrottleRates.
Variable cache_instance : Backend.

Lemma parse_rate_truthy rate L P :
  parse_rate rate = Ok (L, P) -> truthy rate = true.
Proof. destruct rate as [|[|c s]]; [discriminate..|reflexivity]. Qed.

(** The window check on what [cache_result] returned. *)
Lemma check_window_on_bool cache_key b now L P σ :
  check_window cache_instance cache_key (PBool b) now L P σ
  = (Raise TypeError, σ).
Proof. now destruct b. Qed.

Lemma allow_request_try_allows cache_key now L P σ :
  allow_request_try cache_instance cache_key now L P σ
  = (Ok true,
     (cache_instance (CACHE_PREFIX ++ cache_key) (PList []) P σ).2).
Proof.
  unfold allow_request_try, try_except.
  unfold mbind at 1. unfold M_bind. rewrite cache_result_outcome. simpl.
  destruct (cache_instance _ _ _ σ) as [[[]|e] σ'];
    now rewrite check_window_on_bool.
Qed.

(** With a rate that parses, the request reaches the store and is let
    through. *)
Lemma allow_request_parsed self request now σ L P who :
  parse_rate (get_rate rates request) = Ok (L, P) ->
  get_ident request = Ok who ->
  allow_request rates cache_instance self request now σ
  = (Ok true, seen rates self request who,
     (cache_instance
        (CACHE_PREFIX ++ cache_format who (get_rate rates request))
        (PList []) P σ).2).
Proof.
  intros Hparse Hwho. unfold allow_request. simpl.
  rewrite (parse_rate_truthy _ _ _ Hparse), Hwho, Hparse. simpl.
  now rewrite allow_request_try_allows.
Qed.

Lemma allow_request_keeps_history self request now σ :
  history (allow_request rates cache_instance self request now σ).1.2
  = history self.
Proof.
  unfold allow_request. simpl.
  destruct (truthy (get_rate rates request)); simpl; [|reflexivity].
  destruct (get_ident request) as [who|e]; simpl; [|reflexivity].
  destruct (parse_rate (get_rate rates request)) as [[L P]|e]; simpl;
    [|reflexivity].
  now destruct (allow_request_try _ _ _ _ _ σ).
Qed.

Lemma serve_keeps_history calls : forall self σ,
  history (serve rates cache_instance self σ calls).1.2 = history self.
Proof.
  induction calls as [|[request now] later IH]; intros self σ; simpl;
    [reflexivity|].
  pose proof (allow_request_keeps_history self request now σ) as Hstep.
  destruct (allow_request rates cache_instance self request now σ)
    as [[answer self'] σ'].
  specialize (IH self' σ').
  destruct (serve rates cache_instance self' σ' later)
    as [[answers self''] σ''].
  simpl in *. congruence.
Qed.

(** However often a request with a rate that parses is repeated, every
    call is let through. *)
Lemma serve_allows_all request now L P (n : nat) : forall self σ,
  parse_rate (get_rate rates request) = Ok (L, P) ->
  (serve rates cache_instance self σ (repeat (request, now) n)).1.1
  = repeat (Ok true) n.
Proof.
  intros self σ Hparse. revert self σ.
  induction n as [|n IH]; intros self σ; simpl; [reflexivity|].
  destruct (get_ident_total request) as [who Hwho].
  rewrite (allow_request_parsed self request now σ L P who Hparse Hwho).
  specialize (IH (seen rates self request who)
                 (cache_instance
                    (CACHE_PREFIX ++ cache_format who (get_rate rates request))
                    (PList []) P σ).2).
  destruct (serve rates cache_instance _ _ (repeat (request, now) n))
    as [[answers self''] σ''].
  simpl in *. now rewrite IH.
Qed.

End Admission.

(** C1, evaluated on the code at the input where it fails: under the
    shipped rate of ten requests an hour for anonymous callers, eleven
    calls in a row from one address, with the clock held at zero, are all
    answered [True]; the eleventh is not refused. *)
Theorem eleventh_request_allowed :
  (serve DEFAULT_THROTTLE_RATES no_backend init ∅
     (repeat (anonymous "203.0.113.7", 0%Q) 11)).1.1
  = repeat (Ok true) 11.
Proof. now apply (serve_allows_all _ _ _ _ 10 3600). Qed.

(** C2: when the cache client raises during the window fetch,
    [allow_request] returns [True] and the exception does not reach the
    caller; and when it raises during the window write of an allowed
    request, the window check returns [True] all the same. *)
Theorem store_failure_fails_open :
  (forall rates cache_instance self request now σ L P who e σ',
     parse_rate (get_rate rates request) = Ok (L, P) ->
     get_ident request = Ok who ->
     cache_instance
       (CACHE_PREFIX ++ cache_format who (get_rate rates request))
       (PList []) P σ = (Raise e, σ') ->
     allow_request rates cache_instance self request now σ
     = (Ok true, seen rates self request who, σ'))
  /\ (forall cache_instance cache_key ts now L P σ e σ',
        let kept := pop_expired (length ts) (now - inject_Z P) ts in
        Z.of_nat (length kept) < L ->
        cache_instance (CACHE_PREFIX ++ cache_key) (PList (now :: kept)) P σ
        = (Raise e, σ') ->
        check_window cache_instance cache_key (PList ts) now L P σ
        = (Ok true, σ')).
Proof.
  split.
  - intros rates cache_instance self request now σ L P who e σ' Hparse Hwho Hget.
    rewrite (allow_request_parsed _ _ _ _ _ _ _ _ _ Hparse Hwho).
    now rewrite Hget.
  - intros cache_instance cache_key ts now L P σ e σ' kept Hroom Hset.
    unfold check_window, lift, mbind, M_bind. simpl. fold kept.
    destruct (Z.leb_spec L (Z.of_nat (length kept))) as [Hfull|_]; [lia|].
    rewrite cache_result_outcome. simpl. now rewrite Hset.
Qed.

Lemma store_failure_fails_open_witness :
  allow_request DEFAULT_THROTTLE_RATES down_backend init
    (anonymous "203.0.113.7") 0%Q ∅
  = (Ok true,
     {| rate := PyStr "10/hour"; ident := Some (PyStr "203.0.113.7");
        history := PEmptyDict |}, ∅)
  /\ check_window down_backend "throttle_203.0.113.7_2/minute"
       (PList [5#1; 0#1]%Q) (61#1)%Q 2 60 ∅
     = (Ok true, ∅).
Proof.
  split.
  - exact (proj1 store_failure_fails_open DEFAULT_THROTTLE_RATES down_backend
             init (anonymous "203.0.113.7") 0%Q ∅ 10 3600
             (PyStr "203.0.113.7") (OtherException "ConnectionError") ∅
             eq_refl eq_refl eq_refl).
  - refine (proj2 store_failure_fails_open down_backend
              "throttle_203.0.113.7_2/minute" [5#1; 0#1]%Q (61#1)%Q 2 60 ∅
              (OtherException "ConnectionError") ∅ _ eq_refl).
    vm_compute. reflexivity.
Defined.

(** ** Malformed rates *)




(** ** The window check *)

Section Pruning.

Variable cutoff : Q.

Lemma removelast_shorter (ts : list Q) oldest :
  last ts = Some oldest -> S (length (removelast ts)) = length ts.
Proof.
  induction ts as [|t [|t' ts'] IH]; [discriminate|reflexivity|].
  intros Hlast. change (last (t :: t' :: ts')) with (last (t' :: ts')) in Hlast.
  change (removelast (t :: t' :: ts')) with (t :: removelast (t' :: ts')).
  cbn [length]. f_equal. exact (IH Hlast).
Qed.

(** The rounds given to the pruning loop are enough: when it stops, the
    list is empty or its last timestamp is newer than the cutoff. *)
Lemma pop_expired_stops rounds : forall ts : list Q,
  (length ts <= rounds)%nat ->
  match last (pop_expired rounds cutoff ts) with
  | Some oldest => Qle_bool oldest cutoff = false
  | None => True
  end.
Proof.
  induction rounds as [|rounds IH]; intros ts Hlen.
  - destruct ts; [exact I|simpl in Hlen; lia].
  - simpl. destruct (last ts) as [oldest|] eqn:Hlast.
    + destruct (Qle_bool oldest cutoff) eqn:Hold.
      * apply IH. pose proof (removelast_shorter ts oldest Hlast). lia.
      * now rewrite Hlast.
    + now rewrite Hlast.
Qed.

(** Pruning only removes timestamps, from the old end. *)
Lemma pop_expired_prefix rounds : forall ts : list Q,
  exists dropped, ts = (pop_expired rounds cutoff ts ++ dropped)%list.
Proof.
  induction rounds as [|rounds IH]; intros ts; simpl.
  - exists []. now rewrite app_nil_r.
  - destruct (last ts) as [oldest|] eqn:Hlast;
      [|exists []; now rewrite app_nil_r].
    destruct (Qle_bool oldest cutoff); [|exists []; now rewrite app_nil_r].
    destruct (IH (removelast ts)) as [dropped Hdropped].
    exists (dropped ++ [oldest])%list. rewrite app_assoc, <- Hdropped.
    destruct ts as [|t ts'] using rev_ind; [discriminate|].
    rewrite last_snoc in Hlast. injection Hlast as ->.
    now rewrite removelast_last.
Qed.

End Pruning.


Lemma allow_request_shipped_store rates self request now σ :
  (allow_request rates no_backend self request now σ).2 = σ.
Proof.
  unfold allow_request. cbn -[allow_request_try].
  destruct (truthy (get_rate rates request)); cbn -[allow_request_try];
    [|reflexivity].
  destruct (get_ident request) as [who|e]; cbn -[allow_request_try];
    [|reflexivity].
  destruct (parse_rate (get_rate rates request)) as [[L P]|e];
    cbn -[allow_request_try]; [|reflexivity].
  now rewrite allow_request_try_allows.
Qed.

(** The window check taken by itself, on a list-valued history: when the
    pruned list already holds at least [limit] entries the check returns
    [False] and the store is left as it was. [allow_request] never hands
    the check such a list. With the module as shipped no call of
    [allow_request] changes the store at all. *)
Lemma denied_request_leaves_store :
  (forall cache_instance cache_key ts now L P σ,
     L <= Z.of_nat (length (pop_expired (length ts) (now - inject_Z P) ts)) ->
     check_window cache_instance cache_key (PList ts) now L P σ
     = (Ok false, σ))
  /\ (forall rates self request now σ,
        (allow_request rates no_backend self request now σ).2 = σ).
Proof.
  split; [|exact allow_request_shipped_store].
  intros cache_instance cache_key ts now L P σ Hfull.
  unfold check_window, lift, mbind, M_bind. simpl.
  now destruct (Z.leb_spec L
    (Z.of_nat (length (pop_expired (length ts) (now - inject_Z P) ts))));
    [|lia].
Qed.

Lemma denied_request_leaves_store_witness :
  check_window dict_backend "throttle_user:42_2/minute"
    (PList [5#1; 0#1]%Q) (10#1)%Q 2 60 ∅
  = (Ok false, ∅).
Proof.
  apply (proj1 denied_request_leaves_store dict_backend
           "throttle_user:42_2/minute" [5#1; 0#1]%Q (10#1)%Q 2 60 ∅).
  vm_compute. discriminate.
Defined.

(** ** Waiting time *)

(** [wait] taken by itself: on a freshly constructed instance it returns
    [None]; on an instance whose [history] is a non-empty list and whose
    rate parses it returns the oldest timestamp plus the period minus the
    current time when that is positive, and [None] otherwise.
    [allow_request] never brings an instance into the second state. *)
Lemma wait_contract :
  (forall now, wait init now = Ok None)
  /\ (forall self ts oldest L P now,
        history self = PList ts ->
        last ts = Some oldest ->
        parse_rate (rate self) = Ok (L, P) ->
        let wait_time := (oldest + inject_Z P - now)%Q in
        wait self now
        = Ok (if Qlt_bool 0 wait_time then Some wait_time else None)).
Proof.
  split; [reflexivity|].
  intros self ts oldest L P now Hhistory Hlast Hparse wait_time.
  unfold wait. rewrite Hhistory, Hparse. simpl. rewrite Hlast.
  destruct ts as [|t ts']; [discriminate Hlast|reflexivity].
Qed.

Lemma wait_contract_witness :
  wait init (10#1)%Q = Ok None
  /\ wait {| rate := PyStr "2/minute"; ident := Some (PyStr "user:42");
             history := PList [5#1; 0#1]%Q |} (10#1)%Q
     = Ok (Some ((0#1) + inject_Z 60 - (10#1))%Q)
  /\ wait {| rate := PyStr "2/minute"; ident := Some (PyStr "user:42");
             history := PList [5#1; 0#1]%Q |} (61#1)%Q
     = Ok None.
Proof.
  split; [exact (proj1 wait_contract (10#1)%Q)|]. split.
  - exact (proj2 wait_contract
             {| rate := PyStr "2/minute"; ident := Some (PyStr "user:42");
                history := PList [5#1; 0#1]%Q |}
             [5#1; 0#1]%Q (0#1)%Q 2 60 (10#1)%Q eq_refl eq_refl eq_refl).
  - exact (proj2 wait_contract
             {| rate := PyStr "2/minute"; ident := Some (PyStr "user:42");
                history := PList [5#1; 0#1]%Q |}
             [5#1; 0#1]%Q (0#1)%Q 2 60 (61#1)%Q eq_refl eq_refl eq_refl).
Defined.

(** C10: the [history] attribute is the empty dict of [__init__] and
    [allow_request] never writes it, so after any sequence of
    [allow_request] calls on an instance [wait] takes the empty-history
    branch and returns [None]. *)
Theorem history_is_never_written rates cache_instance calls σ now :
  let self := (serve rates cache_instance init σ calls).1.2 in
  history self = PEmptyDict /\ wait self now = Ok None.
Proof.
  intros self.
  assert (Hkept : history self = PEmptyDict)
    by apply (serve_keeps_history rates cache_instance calls init σ).
  split; [exact Hkept|]. unfold wait. now rewrite Hkept.
Qed.

(** ** Audio file validation *)

Section PathFacts.

Lemma lower_app a b : lower (a ++ b) = lower a ++ lower b.
Proof. induction a as [|c a IH]; simpl; [reflexivity|now rewrite IH]. Qed.

Lemma lower_char_slash c : Ascii.eqb (lower_char c) "/" = Ascii.eqb c "/".
Proof. destruct c as [[] [] [] [] [] [] [] []]; reflexivity. Qed.

Lemma lower_char_period c : Ascii.eqb (lower_char c) "." = Ascii.eqb c ".".
Proof. destruct c as [[] [] [] [] [] [] [] []]; reflexivity. Qed.

Lemma has_stem_lower s : forall seen, has_stem seen (lower s) = has_stem seen s.
Proof.
  induction s as [|c s IH]; intros seen; cbn [lower has_stem]; [reflexivity|].
  rewrite lower_char_slash, lower_char_period, !IH. reflexivity.
Qed.

Lemma occurs_period_lower s : occurs "." (lower s) = occurs "." s.
Proof.
  induction s as [|c s IH]; cbn [lower occurs]; [reflexivity|].
  now rewrite lower_char_period, IH.
Qed.

Lemma cut_at_last_absent c s : occurs c s = false -> cut_at_last c s = None.
Proof.
  induction s as [|x s IH]; cbn [occurs cut_at_last]; [reflexivity|].
  intros [Hx Hs]%orb_false_elim. now rewrite (IH Hs), Hx.
Qed.

Lemma cut_at_last_app c a e :
  occurs c e = false ->
  cut_at_last c (a ++ String c e) = Some (a, String c e).
Proof.
  intros He. induction a as [|x a IH].
  - change ("" ++ String c e) with (String c e). cbn [cut_at_last].
    now rewrite (cut_at_last_absent _ _ He), Ascii.eqb_refl.
  - change (String x a ++ String c e) with (String x (a ++ String c e)).
    cbn [cut_at_last]. now rewrite IH.
Qed.

(** A name that ends in a period and letters without a period has those
    as its extension exactly when something other than periods comes
    before them in the last component. *)
Lemma splitext_suffix stem e :
  occurs "." e = false -> occurs "/" e = false ->
  splitext (stem ++ String "." e)
  = if has_stem false stem then (stem, String "." e)
    else (stem ++ String "." e, "").
Proof.
  intros Hperiod Hslash. unfold splitext.
  rewrite (cut_at_last_app _ _ _ Hperiod). cbn [occurs].
  change (Ascii.eqb "." "/") with false. rewrite Hslash. reflexivity.
Qed.

End PathFacts.

Section AudioValidation.

Lemma supported_extension_shape ext :
  In ext SUPPORTED_AUDIO_FORMATS ->
  member ext SUPPORTED_AUDIO_FORMATS = true /\
  exists e, ext = String "." e /\ occurs "." e = false /\ occurs "/" e = false.
Proof.
  unfold SUPPORTED_AUDIO_FORMATS. simpl.
  intros [<-|[<-|[<-|[]]]]; (split; [reflexivity|]); eexists; repeat split.
Qed.

Lemma splitext_supported stem suffix :
  has_stem false stem = true ->
  In (lower suffix) SUPPORTED_AUDIO_FORMATS ->
  splitext (lower (stem ++ suffix)) = (lower stem, lower suffix).
Proof.
  intros Hstem Hin.
  destruct (supported_extension_shape _ Hin) as (_ & e & He & Hperiod & Hslash).
  rewrite lower_app, He, (splitext_suffix _ _ Hperiod Hslash).
  now rewrite has_stem_lower, Hstem.
Qed.

(** A file whose name has a stem and ends in a supported extension, in
    whatever letter case, and whose size is at most the limit, passes
    [validate_audio_file] and [process_audio_file]. *)
Theorem audio_file_accepted stem suffix file_size_mb :
  has_stem false stem = true ->
  In (lower suffix) SUPPORTED_AUDIO_FORMATS ->
  file_size_mb <= MAX_AUDIO_FILE_SIZE_MB ->
  validate_audio_file (stem ++ suffix) file_size_mb = Returned true
  /\ process_audio_file (stem ++ suffix) file_size_mb = Ok true.
Proof.
  intros Hstem Hin Hsize.
  assert (Hvalid : validate_audio_file (stem ++ suffix) file_size_mb
                   = Returned true).
  { unfold validate_audio_file. rewrite (splitext_supported _ _ Hstem Hin).
    rewrite (proj1 (supported_extension_shape _ Hin)). cbn [negb].
    destruct (Z.ltb_spec MAX_AUDIO_FILE_SIZE_MB file_size_mb); [lia|reflexivity]. }
  split; [exact Hvalid|]. unfold process_audio_file. now rewrite Hvalid.
Qed.

Lemma audio_file_accepted_witness :
  validate_audio_file "Shows/Episode.One.MP3" 500 = Returned true
  /\ process_audio_file "Shows/Episode.One.MP3" 500 = Ok true.
Proof.
  apply (audio_file_accepted "Shows/Episode.One" ".MP3" 500);
    [reflexivity|simpl; tauto|unfold MAX_AUDIO_FILE_SIZE_MB; lia].
Defined.

(** A file with a supported extension that is larger than the limit makes
    [validate_audio_file] raise [FileSizeLimitExceeded]; from
    [process_audio_file] the caller gets a [ValidationError] with the
    text of the unexpected-error handler, never [FileSizeLimitExceeded]. *)
Theorem audio_file_too_large stem suffix file_size_mb :
  has_stem false stem = true ->
  In (lower suffix) SUPPORTED_AUDIO_FORMATS ->
  MAX_AUDIO_FILE_SIZE_MB < file_size_mb ->
  let text := "File size (" ++ str_int file_size_mb ++
              "MB) exceeds the maximum allowed size of 500MB" in
  validate_audio_file (stem ++ suffix) file_size_mb
  = RaisedFileSizeLimitExceeded text
  /\ process_audio_file (stem ++ suffix) file_size_mb
     = Raise (ValidationError
                ("Unexpected error during audio file processing: " ++ text)).
Proof.
  intros Hstem Hin Hsize text.
  assert (Hvalid : validate_audio_file (stem ++ suffix) file_size_mb
                   = RaisedFileSizeLimitExceeded text).
  { unfold validate_audio_file. rewrite (splitext_supported _ _ Hstem Hin).
    rewrite (proj1 (supported_extension_shape _ Hin)). cbn [negb].
    destruct (Z.ltb_spec MAX_AUDIO_FILE_SIZE_MB file_size_mb); [reflexivity|lia]. }
  split; [exact Hvalid|]. unfold process_audio_file. now rewrite Hvalid.
Qed.

Lemma audio_file_too_large_witness :
  validate_audio_file "large.mp3" 501
  = RaisedFileSizeLimitExceeded
      "File size (501MB) exceeds the maximum allowed size of 500MB"
  /\ process_audio_file "large.mp3" 501
     = Raise (ValidationError
                "Unexpected error during audio file processing: File size (501MB) exceeds the maximum allowed size of 500MB").
Proof.
  apply (audio_file_too_large "large" ".mp3" 501);
    [reflexivity|simpl; tauto|unfold MAX_AUDIO_FILE_SIZE_MB; lia].
Defined.

(** A name that is nothing but an extension behind its directory, such as
    ".mp3" or "uploads/.wav", has no extension for [splitext]: it is
    refused as an unsupported format, whatever its size. *)
Theorem bare_extension_rejected directory e file_size_mb :
  has_stem false directory = false ->
  occurs "." e = false ->
  validate_audio_file (directory ++ String "." e) file_size_mb
  = RaisedValidationError
      "Unsupported audio format: . Supported formats are: .mp3, .wav, .aac".
Proof.
  intros Hdir He. unfold validate_audio_file, splitext.
  rewrite lower_app. cbn [lower].
  change (lower_char ".") with "."%char.
  rewrite cut_at_last_app by now rewrite occurs_period_lower.
  rewrite has_stem_lower, Hdir, andb_false_r. reflexivity.
Qed.

Lemma bare_extension_rejected_witness :
  validate_audio_file "uploads/.mp3" 1
  = RaisedValidationError
      "Unsupported audio format: . Supported formats are: .mp3, .wav, .aac".
Proof.
  apply (bare_extension_rejected "uploads/" "mp3" 1); reflexivity.
Defined.

(** The three ways in which [process_audio_file] ends, side by side. *)
Lemma process_audio_file_cases file_name file_size_mb :
  let ext := (splitext (lower file_name)).2 in
  (member ext SUPPORTED_AUDIO_FORMATS = true /\
   file_size_mb <= MAX_AUDIO_FILE_SIZE_MB /\
   process_audio_file file_name file_size_mb = Ok true)
  \/ (member ext SUPPORTED_AUDIO_FORMATS = false /\
      process_audio_file file_name file_size_mb
      = Raise (ValidationError
                 ("Failed to process audio file: Unsupported audio format: "
                  ++ ext ++ ". Supported formats are: .mp3, .wav, .aac")))
  \/ (member ext SUPPORTED_AUDIO_FORMATS = true /\
      MAX_AUDIO_FILE_SIZE_MB < file_size_mb /\
      process_audio_file file_name file_size_mb
      = Raise (ValidationError
                 ("Unexpected error during audio file processing: File size ("
                  ++ str_int file_size_mb
                  ++ "MB) exceeds the maximum allowed size of 500MB"))).
Proof.
  intros ext. unfold process_audio_file, validate_audio_file. subst ext.
  destruct (splitext (lower file_name)) as [root ext]. cbn [snd].
  destruct (member ext SUPPORTED_AUDIO_FORMATS); cbn [negb].
  - destruct (Z.ltb_spec MAX_AUDIO_FILE_SIZE_MB file_size_mb).
    + right; right. repeat split; assumption.
    + left. repeat split; assumption.
  - right; left. split; reflexivity.
Qed.

End AudioValidation.

(** ** API version of a request *)

Section ApiVersion.

(** Whatever the headers, the version handed out is a supported one. *)
Theorem version_is_supported headers :
  In (Versioning.get_version_from_request headers)
     Versioning.SUPPORTED_API_VERSIONS.
Proof.
  unfold Versioning.get_version_from_request.
  destruct (Versioning.search _) as [version|]; [|simpl; tauto].
  destruct (Versioning.validate_version version) eqn:Hvalid; [|simpl; tauto].
  unfold Versioning.validate_version, member in Hvalid.
  apply existsb_exists in Hvalid as (known & Hin & Heq).
  now apply String.eqb_eq in Heq as ->.
Qed.

Lemma search_skips prefix s :
  occurs "v" prefix = false ->
  Versioning.search (prefix ++ s) = Versioning.search s.
Proof.
  induction prefix as [|x prefix IH]; [reflexivity|].
  cbn [occurs]. intros [Hx Hrest]%orb_false_elim.
  change (String x prefix ++ s) with (String x (prefix ++ s)).
  cbn [Versioning.search]. unfold Versioning.match_here at 1.
  cbn [Versioning.after_prefix].
  rewrite Ascii.eqb_sym, Hx. now apply IH.
Qed.

(** An Accept header that names a supported version in the documented
    way, [version=vN] behind a media type without the letter v and not
    followed by a further digit, is answered with that version. *)
Theorem version_is_read_back headers media_type version rest :
  occurs "v" media_type = false ->
  In version Versioning.SUPPORTED_API_VERSIONS ->
  Versioning.digits_prefix rest = "" ->
  headers !! "Accept" = Some (media_type ++ "version=" ++ version ++ rest) ->
  Versioning.get_version_from_request headers = version.
Proof.
  intros Hmedia Hin Hrest Haccept.
  unfold Versioning.get_version_from_request. rewrite Haccept.
  change (default "" (Some ?a)) with a.
  rewrite (search_skips _ _ Hmedia).
  assert (Hmatch : Versioning.match_here ("version=" ++ version ++ rest)
                   = Some version).
  { unfold Versioning.SUPPORTED_API_VERSIONS in Hin. simpl in Hin.
    destruct Hin as [<-|[<-|[]]];
      unfold Versioning.match_here; simpl Versioning.after_prefix.
    - change ("1" ++ rest) with (String "1" rest).
      cbn [Versioning.digits_prefix].
      change (Versioning.is_digit "1") with true. cbn iota.
      now rewrite Hrest.
    - change ("2" ++ rest) with (String "2" rest).
      cbn [Versioning.digits_prefix].
      change (Versioning.is_digit "2") with true. cbn iota.
      now rewrite Hrest. }
  assert (Hsearch : Versioning.search ("version=" ++ version ++ rest)
                    = Some version).
  { change ("version=" ++ version ++ rest)
      with (String "v" ("ersion=" ++ version ++ rest)) in *.
    cbn [Versioning.search]. now rewrite Hmatch. }
  rewrite Hsearch.
  unfold Versioning.SUPPORTED_API_VERSIONS in Hin. simpl in Hin.
  now destruct Hin as [<-|[<-|[]]].
Qed.

Lemma version_is_read_back_witness :
  Versioning.get_version_from_request
    {["Accept" := "application/json; version=v2"]}
  = "v2".
Proof.
  apply (version_is_read_back _ "application/json; " "v2" "");
    [reflexivity|simpl; tauto|reflexivity|reflexivity].
Defined.

End ApiVersion.

(** ** The request counter of api/versioning.py *)

Section RequestCounter.

Import Versioning.

(** A timestamp that the pruning of [allow_request] keeps at [now]. *)
Local Abbreviation fresh now :=
  (fun timestamp =>
     Qle_bool (now - timestamp) (inject_Z REQUEST_WINDOW_SECONDS)).

Lemma filter_keeps_all {A : Type} (f : A -> bool) (l : list A) :
  (forall x, In x l -> f x = true) -> List.filter f l = l.
Proof.
  induction l as [|x l IH]; intros Hall; simpl; [reflexivity|].
  rewrite (Hall x (or_introl eq_refl)), IH; [reflexivity|].
  intros y Hy. apply Hall. now right.
Qed.

Lemma filter_drops_all {A : Type} (f : A -> bool) (l : list A) :
  (forall x, In x l -> f x = false) -> List.filter f l = [].
Proof.
  induction l as [|x l IH]; intros Hall; simpl; [reflexivity|].
  rewrite (Hall x (or_introl eq_refl)). apply IH.
  intros y Hy. apply Hall. now right.
Qed.

Lemma filter_not_longer {A : Type} (f : A -> bool) (l : list A) :
  (length (List.filter f l) <= length l)%nat.
Proof.
  induction l as [|x l IH]; simpl; [lia|]. destruct (f x); simpl; lia.
Qed.

Lemma now_is_fresh (now : Q) : fresh now now = true.
Proof.
  apply Qle_bool_iff. unfold Qminus. rewrite Qplus_opp_r.
  now apply Qle_bool_iff.
Qed.

(** One call, with the two writes to the client's entry merged. *)
Lemma counter_step (request : Request) (now : Q) (request_history : History) :
  let client := client_ip_of request in
  let kept := List.filter (fresh now) (default [] (request_history !! client)) in
  allow_request request now request_history
  = if (MAX_REQUESTS_PER_MINUTE <=? Z.of_nat (length kept))%Z
    then (false, <[client := kept]> request_history)
    else (true, <[client := (kept ++ [now])%list]> request_history).
Proof.
  intros client kept. unfold allow_request. fold client. fold kept.
  destruct (MAX_REQUESTS_PER_MINUTE <=? Z.of_nat (length kept))%Z;
    [reflexivity|].
  now rewrite insert_insert_eq.
Qed.

Lemma serve_counts (request : Request) (times : list Q) : forall (request_history : History) stored,
  default [] (request_history !! client_ip_of request) = stored ->
  (forall w t, In w stored -> In t times -> fresh t w = true) ->
  (forall e l, In e times -> In l times -> fresh l e = true) ->
  (serve request times request_history).1
  = map (fun k => Nat.ltb (length stored + k) 60) (seq 0 (length times)).
Proof.
  induction times as [|t later IH]; intros request_history stored Hstored Hold Hnew;
    [reflexivity|].
  cbn [serve]. rewrite counter_step. rewrite Hstored.
  rewrite (filter_keeps_all (fresh t) stored)
    by (intros w Hw; apply Hold; [exact Hw|now left]).
  cbn [length seq map].
  destruct (Z.leb_spec MAX_REQUESTS_PER_MINUTE (Z.of_nat (length stored)))
    as [Hfull|Hroom]; unfold MAX_REQUESTS_PER_MINUTE in *.
  - specialize (IH (<[client_ip_of request := stored]> request_history) stored).
    destruct (serve request later _) as [answers final]. cbn [fst] in *.
    rewrite IH.
    + f_equal; [symmetry; apply Nat.ltb_ge; lia|].
      rewrite <- seq_shift, map_map. apply map_ext.
      intros k. transitivity false; [|symmetry]; apply Nat.ltb_ge; lia.
    + now rewrite lookup_insert_eq.
    + intros w t' Hw Ht'. apply Hold; [exact Hw|now right].
    + intros e l He Hl. apply Hnew; now right.
  - specialize (IH (<[client_ip_of request := (stored ++ [t])%list]>
                      request_history) (stored ++ [t])%list).
    destruct (serve request later _) as [answers final]. cbn [fst] in *.
    rewrite IH.
    + f_equal; [symmetry; apply Nat.ltb_lt; lia|].
      rewrite <- seq_shift, map_map. apply map_ext.
      intros k. rewrite length_app. cbn [length]. f_equal. lia.
    + now rewrite lookup_insert_eq.
    + intros w t' [Hw|[<-|[]]]%in_app_or Ht'.
      * apply Hold; [exact Hw|now right].
      * apply Hnew; [now left|now right].
    + intros e l He Hl. apply Hnew; now right.
Qed.

(** Calls of a client that the history does not know yet, at clock
    readings that lie within one window of each other: the first sixty are
    let through and every later one is refused. *)
Theorem counter_enforces_limit (request : Request) (times : list Q)
    (request_history : History) :
  request_history !! client_ip_of request = None ->
  within_window times = true ->
  (serve request times request_history).1
  = map (fun k => Nat.ltb k 60) (seq 0 (length times)).
Proof.
  intros Hnew Hspan.
  apply (serve_counts request times request_history []).
  - now rewrite Hnew.
  - intros w t [].
  - intros e l He Hl. unfold within_window in Hspan.
    rewrite forallb_forall in Hspan. specialize (Hspan e He).
    rewrite forallb_forall in Hspan. exact (Hspan l Hl).
Qed.

Lemma counter_enforces_limit_witness :
  (serve (anonymous "203.0.113.7") (repeat 0%Q 61) ∅).1
  = (repeat true 60 ++ [false])%list.
Proof.
  exact (counter_enforces_limit (anonymous "203.0.113.7") (repeat 0%Q 61) ∅
           eq_refl eq_refl).
Defined.

Lemma counter_step_other (request : Request) (now : Q)
    (request_history : History) (client : option string) :
  client <> client_ip_of request ->
  (allow_request request now request_history).2 !! client
  = request_history !! client.
Proof.
  intros Hother. rewrite counter_step. cbv zeta.
  destruct (_ <=? _)%Z; cbn [snd]; now rewrite lookup_insert_ne.
Qed.

Lemma serve_other (request : Request) (times : list Q)
    (client : option string) : forall request_history : History,
  client <> client_ip_of request ->
  (serve request times request_history).2 !! client
  = request_history !! client.
Proof.
  induction times as [|t later IH]; intros request_history Hother;
    [reflexivity|].
  cbn [serve].
  pose proof (counter_step_other request t request_history client Hother) as Hstep.
  destruct (allow_request request t request_history) as [answer next].
  specialize (IH next Hother).
  destruct (serve request later next) as [answers final].
  cbn [snd] in *. congruence.
Qed.

(** Clients are counted apart: whatever one client has sent, the entry of
    another client is as it was, and so is the answer that client gets. *)
Theorem counter_separates_clients (one other : Request) (times : list Q)
    (now : Q)
    (request_history : History) :
  client_ip_of other <> client_ip_of one ->
  let after := (serve one times request_history).2 in
  after !! client_ip_of other = request_history !! client_ip_of other
  /\ (allow_request other now after).1
     = (allow_request other now request_history).1.
Proof.
  intros Hother after.
  assert (Hsame : after !! client_ip_of other
                  = request_history !! client_ip_of other)
    by now apply serve_other.
  split; [exact Hsame|].
  rewrite !counter_step. cbv zeta. rewrite Hsame.
  now destruct (_ <=? _)%Z.
Qed.

Lemma counter_separates_clients_witness :
  let after :=
    (serve (anonymous "203.0.113.7") (repeat 0%Q 61) ∅).2 in
  after !! Some "198.51.100.4" = None
  /\ (allow_request (anonymous "198.51.100.4") 0%Q after).1
     = (allow_request (anonymous "198.51.100.4") 0%Q ∅).1.
Proof.
  refine (counter_separates_clients (anonymous "203.0.113.7")
            (anonymous "198.51.100.4") (repeat 0%Q 61) 0%Q ∅ _).
  vm_compute. discriminate.
Defined.

(** Once every timestamp kept for a client is older than the window, the
    next call is let through and the client's entry holds that call
    alone; in particular the first call of a client is always let
    through. *)
Theorem counter_window_expires (request : Request) (now : Q) (request_history : History) :
  Forall (fun w => (inject_Z REQUEST_WINDOW_SECONDS < now - w)%Q)
    (default [] (request_history !! client_ip_of request)) ->
  allow_request request now request_history
  = (true, <[client_ip_of request := [now]]> request_history).
Proof.
  intros Hold. rewrite counter_step. cbv zeta.
  rewrite filter_drops_all; [reflexivity|].
  intros w Hw. rewrite Forall_forall in Hold. specialize (Hold w).
  destruct (Qle_bool (now - w) (inject_Z REQUEST_WINDOW_SECONDS)) eqn:Hfresh;
    [|reflexivity].
  apply Qle_bool_iff in Hfresh. exfalso.
  apply (Qlt_not_le _ _ (Hold ltac:(now apply list_elem_of_In))). exact Hfresh.
Qed.

Lemma counter_window_expires_witness :
  allow_request (anonymous "203.0.113.7") (61#1)%Q
    {[Some "203.0.113.7" := [0#1; 0#1]%Q]}
  = (true,
     <[Some "203.0.113.7" := [61#1]%Q]> {[Some "203.0.113.7" := [0#1; 0#1]%Q]}).
Proof.
  apply (counter_window_expires (anonymous "203.0.113.7") (61#1)%Q
           {[Some "203.0.113.7" := [0#1; 0#1]%Q]}).
  vm_compute. repeat constructor.
Defined.

(** Calls keep the history in shape: no client ever has more timestamps
    than the limit, and after a call every timestamp kept for the calling
    client lies within the window of that call. *)
Theorem counter_keeps_history_bounded (request : Request) (now : Q)
    (request_history : History) :
  bounded request_history ->
  let after := (allow_request request now request_history).2 in
  bounded after
  /\ forall timestamps,
       after !! client_ip_of request = Some timestamps ->
       Forall (fun w => (now - w <= inject_Z REQUEST_WINDOW_SECONDS)%Q)
         timestamps.
Proof.
  intros Hbounded after. subst after. rewrite counter_step. cbv zeta.
  set (stored := default [] (request_history !! client_ip_of request)).
  set (kept := List.filter (fresh now) stored).
  assert (Hkept : Forall (fun w => (now - w <= inject_Z REQUEST_WINDOW_SECONDS)%Q)
                    kept).
  { apply Forall_forall. intros w Hw%list_elem_of_In.
    apply filter_In in Hw as [_ Hw]. now apply Qle_bool_iff. }
  assert (Hstored : (Z.of_nat (length stored) <= MAX_REQUESTS_PER_MINUTE)%Z).
  { subst stored. destruct (request_history !! client_ip_of request) eqn:Hlook.
    - exact (Hbounded _ _ Hlook).
    - unfold MAX_REQUESTS_PER_MINUTE. simpl. lia. }
  pose proof (filter_not_longer (fresh now) stored) as Hshorter. fold kept in Hshorter.
  destruct (Z.leb_spec MAX_REQUESTS_PER_MINUTE (Z.of_nat (length kept)))
    as [Hfull|Hroom]; cbn [snd]; split.
  - intros client timestamps.
    destruct (decide (client = client_ip_of request)) as [->|Hother].
    + rewrite lookup_insert_eq. intros [= <-]. lia.
    + rewrite lookup_insert_ne by congruence. apply Hbounded.
  - intros timestamps. rewrite lookup_insert_eq. now intros [= <-].
  - intros client timestamps.
    destruct (decide (client = client_ip_of request)) as [->|Hother].
    + rewrite lookup_insert_eq. intros [= <-]. rewrite length_app. simpl. lia.
    + rewrite lookup_insert_ne by congruence. apply Hbounded.
  - intros timestamps. rewrite lookup_insert_eq. intros [= <-].
    apply Forall_app. split; [exact Hkept|].
    constructor; [|constructor]. apply Qle_bool_iff, now_is_fresh.
Qed.

Lemma counter_keeps_history_bounded_witness :
  let after := (allow_request (anonymous "203.0.113.7") (5#1)%Q ∅).2 in
  bounded after
  /\ forall timestamps,
       after !! client_ip_of (anonymous "203.0.113.7") = Some timestamps ->
       Forall (fun w => ((5#1) - w <= inject_Z REQUEST_WINDOW_SECONDS)%Q)
         timestamps.
Proof.
  apply (counter_keeps_history_bounded (anonymous "203.0.113.7") (5#1)%Q ∅).
  intros client timestamps Hlook. rewrite lookup_empty in Hlook.
  discriminate Hlook.
Defined.

End RequestCounter.

(** ** The throttle under its shipped configuration *)

Section ShippedThrottle.

Variable cache_instance : Backend.

Lemma default_rates_parse request :
  exists L P, parse_rate (get_rate DEFAULT_THROTTLE_RATES request) = Ok (L, P).
Proof.
  unfold get_rate. destruct (is_authenticated (user request)).
  - now exists 100, 3600.
  - now exists 10, 3600.
Qed.

Lemma allow_request_never_denies rates self request now σ :
  (allow_request rates cache_instance self request now σ).1.1 <> Ok false.
Proof.
  unfold allow_request. cbn -[allow_request_try].
  destruct (truthy (get_rate rates request)); cbn -[allow_request_try];
    [|discriminate].
  destruct (get_ident request) as [who|e]; cbn -[allow_request_try];
    [|discriminate].
  destruct (parse_rate (get_rate rates request)) as [[L P]|e];
    cbn -[allow_request_try]; [|discriminate].
  rewrite allow_request_try_allows. discriminate.
Qed.

(** With the rate table of the module, every call of [allow_request] is
    answered [True], for every sequence of requests, clock readings,
    instance state, store and cache client: authenticated or not, no
    caller is ever refused and no call raises. *)
Theorem shipped_rates_allow_every_call calls : forall self σ,
  (serve DEFAULT_THROTTLE_RATES cache_instance self σ calls).1.1
  = repeat (Ok true) (length calls).
Proof.
  induction calls as [|[request now] later IH]; intros self σ; [reflexivity|].
  cbn [serve length repeat].
  destruct (default_rates_parse request) as (L & P & Hparse).
  destruct (get_ident_total request) as [who Hwho].
  rewrite (allow_request_parsed _ _ self request now σ L P who Hparse Hwho).
  specialize (IH (seen DEFAULT_THROTTLE_RATES self request who)
                 (cache_instance
                    (CACHE_PREFIX ++ cache_format who
                       (get_rate DEFAULT_THROTTLE_RATES request))
                    (PList []) P σ).2).
  destruct (serve DEFAULT_THROTTLE_RATES cache_instance _ _ later)
    as [[answers self''] σ''].
  cbn [fst] in *. now rewrite IH.
Qed.

End ShippedThrottle.

(** Even with a cache client that stores what it is given, no request
    timestamp is ever recorded: after any sequence of [allow_request]
    calls every window in the store is the empty list. *)
Theorem no_timestamp_is_stored rates calls : forall self σ,
  holds_no_timestamp σ ->
  holds_no_timestamp (serve rates dict_backend self σ calls).2.
Proof.
  induction calls as [|[request now] later IH]; intros self σ Hempty;
    [exact Hempty|].
  cbn [serve].
  assert (Hstep : holds_no_timestamp
                    (allow_request rates dict_backend self request now σ).2).
  { unfold allow_request. cbn -[allow_request_try].
    destruct (truthy (get_rate rates request)); cbn -[allow_request_try];
      [|exact Hempty].
    destruct (get_ident request) as [who|e]; cbn -[allow_request_try];
      [|exact Hempty].
    destruct (parse_rate (get_rate rates request)) as [[L P]|e];
      cbn -[allow_request_try]; [|exact Hempty].
    rewrite allow_request_try_allows. cbn [snd dict_backend].
    intros key value ttl.
    destruct (decide (key = CACHE_PREFIX ++
                              cache_format who (get_rate rates request)))
      as [->|Hother].
    - rewrite lookup_insert_eq. now intros [= <- _].
    - rewrite lookup_insert_ne by congruence. apply Hempty. }
  destruct (allow_request rates dict_backend self request now σ)
    as [[answer self'] σ'].
  specialize (IH self' σ' Hstep).
  now destruct (serve rates dict_backend self' σ' later) as [[answers self''] σ''].
Qed.

Lemma no_timestamp_is_stored_witness :
  holds_no_timestamp
    (serve DEFAULT_THROTTLE_RATES dict_backend init ∅
       (repeat (anonymous "203.0.113.7", 0%Q) 3)).2.
Proof.
  apply (no_timestamp_is_stored DEFAULT_THROTTLE_RATES
           (repeat (anonymous "203.0.113.7", 0%Q) 3) init ∅).
  intros key value ttl Hlook. rewrite lookup_empty in Hlook.
  discriminate Hlook.
Defined.

(** ** The schema view *)

Section SchemaView.

Import Schema.

(** [get_schema] never answers 429, whatever the rates, the throttle
    state and the requests before: a request whose rate parses, or that
    has no rate, gets what [generate_schema] comes to (200 with the
    schema, 404 with the text of a [ValueError], 500 otherwise), and a
    request whose rate is a non-empty string that does not parse gets 500
    without the schema being generated. *)
Theorem get_schema_answers rates cache_instance generate_schema throttle
    request now later σ :
  let response :=
    (get_schema rates cache_instance generate_schema throttle request
       now later σ).1.1 in
  let generated_response :=
    match generate_schema request with
    | Generated schema_content =>
        {| status_code := 200; body := SchemaContent schema_content |}
    | NotAvailable message =>
        {| status_code := 404; body := ErrorMessage message |}
    | Failed =>
        {| status_code := 500; body := ErrorMessage "Internal server error" |}
    end in
  status_code response <> 429
  /\ (truthy (get_rate rates request) = false \/
      (exists L P, parse_rate (get_rate rates request) = Ok (L, P)) ->
      response = generated_response)
  /\ (truthy (get_rate rates request) = true ->
      (exists e, parse_rate (get_rate rates request) = Raise e) ->
      response
      = {| status_code := 500; body := ErrorMessage "Internal server error" |}).
Proof.
  intros response generated_response. subst response.
  destruct (get_ident_total request) as [who Hwho].
  unfold get_schema, allow_request. cbn -[allow_request_try].
  destruct (truthy (get_rate rates request)) eqn:Hrate;
    cbn -[allow_request_try].
  - rewrite Hwho. cbn -[allow_request_try].
    destruct (parse_rate (get_rate rates request)) as [[L P]|e] eqn:Hparse;
      cbn -[allow_request_try].
    + rewrite allow_request_try_allows. cbn [fst snd].
      subst generated_response.
      repeat split.
      * destruct (generate_schema request); discriminate.
      * intros _. now destruct (generate_schema request).
      * intros _ [e He]. discriminate He.
    + destruct (parse_rate_raises_validation _ _ Hparse) as [message ->].
      cbn [on_error fst]. repeat split.
      * discriminate.
      * intros [Hfalse|(L & P & HLP)]; discriminate.
  - subst generated_response. repeat split.
    + destruct (generate_schema request); discriminate.
    + intros _. now destruct (generate_schema request).
    + discriminate.
Qed.

Lemma get_schema_answers_witness :
  (get_schema DEFAULT_THROTTLE_RATES no_backend
     (fun _ => NotAvailable "Schema not available for version v2")
     init (anonymous "203.0.113.7") 0%Q 0%Q ∅).1.1
  = {| status_code := 404;
       body := ErrorMessage "Schema not available for version v2" |}
  /\ (get_schema {| user_rate := PyStr "100/hour"; anon_rate := PyStr "ten" |}
        no_backend (fun _ => Generated "{}")
        init (anonymous "203.0.113.7") 0%Q 0%Q ∅).1.1
     = {| status_code := 500; body := ErrorMessage "Internal server error" |}.
Proof.
  split.
  - refine (proj1 (proj2 (get_schema_answers DEFAULT_THROTTLE_RATES no_backend
              (fun _ => NotAvailable "Schema not available for version v2")
              init (anonymous "203.0.113.7") 0%Q 0%Q ∅)) _).
    right. exists 10, 3600. reflexivity.
  - refine (proj2 (proj2 (get_schema_answers
              {| user_rate := PyStr "100/hour"; anon_rate := PyStr "ten" |}
              no_backend (fun _ => Generated "{}")
              init (anonymous "203.0.113.7") 0%Q 0%Q ∅)) eq_refl _).
    eexists. reflexivity.
Defined.

End SchemaView.

(** ** The window of timestamps *)

Section Window.

Variable cutoff : Q.

(** Timestamps newer than the cutoff. *)
Local Abbreviation live := (fun t : Q => negb (Qle_bool t cutoff)).

Lemma pop_expired_newest_first (ts : list Q) :
  newest_first ts ->
  pop_expired (length ts) cutoff ts = List.filter live ts.
Proof.
  induction ts as [|oldest front IH] using rev_ind; [reflexivity|].
  intros Hsorted. apply StronglySorted_app in Hsorted as (Hnewer & Hfront & _).
  rewrite length_app, Nat.add_1_r. cbn [pop_expired].
  rewrite last_snoc, removelast_last, List.filter_app.
  cbn [List.filter].
  destruct (Qle_bool oldest cutoff) eqn:Hold; cbn [negb].
  - rewrite app_nil_r. now apply IH.
  - f_equal. symmetry. apply filter_keeps_all.
    intros t Ht%list_elem_of_In.
    destruct (Qle_bool t cutoff) eqn:Ht_old; [|reflexivity].
    apply Qle_bool_iff in Ht_old.
    assert (Hle : (oldest <= cutoff)%Q).
    { apply Qle_trans with t; [|exact Ht_old].
      apply (Hnewer t oldest Ht). now apply list_elem_of_here. }
    apply Qle_bool_iff in Hle. congruence.
Qed.

(** On a window kept newest first the pruning loop of [allow_request]
    removes exactly the expired timestamps: what is left are the
    timestamps newer than [now - period], in their order. *)
Theorem pruning_removes_expired (ts : list Q) :
  newest_first ts ->
  pop_expired (length ts) cutoff ts = List.filter live ts.
Proof. exact (pop_expired_newest_first ts). Qed.

End Window.

Lemma pruning_removes_expired_witness :
  pop_expired 3 (1#1)%Q [20#1; 10#1; 0#1]%Q = [20#1; 10#1]%Q.
Proof.
  refine (pruning_removes_expired (1#1)%Q [20#1; 10#1; 0#1]%Q _).
  unfold newest_first. repeat constructor; vm_compute; discriminate.
Defined.

(** A request that finds room in a window kept newest first, at a clock
    reading not older than the window's timestamps and under a positive
    period: the check answers [True] and hands the cache the new window,
    [now] in front of the live timestamps, with the period as
    time-to-live. The new window is again newest first, holds only
    timestamps newer than [now - period], and has at most [limit]
    entries. *)
Theorem check_window_records cache_instance cache_key (ts : list Q) now L P σ :
  newest_first ts ->
  Forall (fun t => (t <= now)%Q) ts ->
  0 < P ->
  let kept := List.filter (fun t => negb (Qle_bool t (now - inject_Z P))) ts in
  Z.of_nat (length kept) < L ->
  check_window cache_instance cache_key (PList ts) now L P σ
  = (Ok true,
     (cache_instance (CACHE_PREFIX ++ cache_key) (PList (now :: kept)) P σ).2)
  /\ newest_first (now :: kept)
  /\ Forall (fun t => (now - inject_Z P < t)%Q) (now :: kept)
  /\ Z.of_nat (length (now :: kept)) <= L.
Proof.
  intros Hsorted Hpast HP kept Hroom.
  assert (Hkept_in : forall t, In t kept ->
            In t ts /\ (now - inject_Z P < t)%Q).
  { intros t Ht. apply filter_In in Ht as [Hin Hlive]. split; [exact Hin|].
    apply Qnot_le_lt. intros Hle%Qle_bool_iff. now rewrite Hle in Hlive. }
  repeat split.
  - unfold check_window, lift, mbind, M_bind. cbn [prune len].
    rewrite (pop_expired_newest_first _ _ Hsorted). fold kept.
    destruct (Z.leb_spec L (Z.of_nat (length kept))) as [Hfull|_]; [lia|].
    cbn [insert_first]. rewrite cache_result_outcome. cbn [default].
    now destruct (cache_instance _ _ _ σ) as [[[]|e] σ'].
  - apply StronglySorted_cons. split.
    + apply Forall_forall. intros t Ht%list_elem_of_In.
      rewrite Forall_forall in Hpast. apply Hpast.
      now apply list_elem_of_In, Hkept_in.
    + clear Hroom Hkept_in. subst kept. unfold newest_first in *.
      induction Hsorted as [|t ts Hts IH Hall]; [constructor|].
      cbn [List.filter]. inversion Hpast; subst.
      destruct (negb (Qle_bool t (now - inject_Z P))); [|now apply IH].
      constructor; [now apply IH|].
      apply Forall_forall. intros x Hx%list_elem_of_In.
      apply filter_In in Hx as [Hx _].
      rewrite List.Forall_forall in Hall. now apply Hall.
  - apply Forall_cons. split.
    + apply Qlt_minus_iff.
      assert (Hdiff : (now + - (now - inject_Z P) == inject_Z P)%Q) by ring.
      rewrite Hdiff. change 0%Q with (inject_Z 0). rewrite <- Zlt_Qlt.
      exact HP.
    + apply Forall_forall. intros t Ht%list_elem_of_In. now apply Hkept_in.
  - cbn [length]. lia.
Qed.

Lemma check_window_records_witness :
  check_window dict_backend "throttle_user:42_2/minute"
    (PList [5#1; 0#1]%Q) (61#1)%Q 2 60 ∅
  = (Ok true,
     {["podcast_automation:throttle_user:42_2/minute"
       := (PList [61#1; 5#1]%Q, 60)]}).
Proof.
  refine (proj1 (check_window_records dict_backend "throttle_user:42_2/minute"
                   [5#1; 0#1]%Q (61#1)%Q 2 60 ∅ _ _ _ _)).
  - unfold newest_first. repeat constructor; vm_compute; discriminate.
  - repeat constructor; vm_compute; discriminate.
  - lia.
  - vm_compute. reflexivity.
Defined.

(** ** Cache keys *)

Section CacheKeys.

Lemma length_append (a b : string) :
  String.length (a ++ b) = (String.length a + String.length b)%nat.
Proof. induction a as [|c a IH]; simpl; [reflexivity|now rewrite IH]. Qed.

Lemma append_cancel_r (a b s : string) : a ++ s = b ++ s -> a = b.
Proof.
  revert b. induction a as [|x a IH]; intros [|y b] Heq.
  - reflexivity.
  - apply (f_equal String.length) in Heq.
    simpl in Heq. rewrite ?length_append in Heq. cbn [String.length] in Heq.
    lia.
  - apply (f_equal String.length) in Heq.
    simpl in Heq. rewrite ?length_append in Heq. cbn [String.length] in Heq.
    lia.
  - simpl in Heq. injection Heq as -> Heq. f_equal. now apply IH.
Qed.

Lemma str_int_injective a b : str_int a = str_int b -> a = b.
Proof.
  intros Heq. apply (f_equal int_literal) in Heq.
  rewrite !int_literal_str_int in Heq. now injection Heq.
Qed.

(** Under one rate, two callers share a cache key only if their
    identifiers read the same. *)
Lemma cache_format_separates who who' rate :
  cache_format who rate = cache_format who' rate -> str who = str who'.
Proof.
  unfold cache_format. intros Heq.
  change ("throttle_" ++ ?x) with
    (String "t" (String "h" (String "r" (String "o" (String "t"
      (String "t" (String "l" (String "e" (String "_" x))))))))) in Heq.
  injection Heq as Heq. now apply append_cancel_r in Heq.
Qed.

(** Authenticated users are told apart: two authenticated requests get
    the same identifier, and under a common rate table the same cache
    key, exactly when they carry the same user id. *)
Theorem users_have_their_own_key rates (one other : Request) :
  is_authenticated (user one) = true ->
  is_authenticated (user other) = true ->
  exists who who',
    get_ident one = Ok who /\ get_ident other = Ok who' /\
    (cache_format who (get_rate rates one)
     = cache_format who' (get_rate rates other)
     <-> id (user one) = id (user other)).
Proof.
  intros Hone Hother. unfold get_ident, get_rate. rewrite Hone, Hother.
  do 2 eexists. repeat split.
  - intros Heq%cache_format_separates. now apply str_int_injective.
  - now intros ->.
Qed.

Lemma users_have_their_own_key_witness :
  exists who who',
    get_ident {| user := {| is_authenticated := true; id := 42 |}; META := ∅ |}
    = Ok who
    /\ get_ident {| user := {| is_authenticated := true; id := 420 |}; META := ∅ |}
       = Ok who'
    /\ (cache_format who (PyStr "100/hour") = cache_format who' (PyStr "100/hour")
        <-> 42 = 420).
Proof.
  exact (users_have_their_own_key DEFAULT_THROTTLE_RATES
           {| user := {| is_authenticated := true; id := 42 |}; META := ∅ |}
           {| user := {| is_authenticated := true; id := 420 |}; META := ∅ |}
           eq_refl eq_refl).
Defined.

End CacheKeys.

(** ** What a parsed rate is made of *)

(** Whenever [parse_rate] returns, the rate string had exactly two tokens,
    the count is what [int()] reads from the first (surrounding
    whitespace, a sign, leading zeros and single underscores included),
    and the seconds are those of the table for the second: no other
    period length is ever returned. *)
Theorem parse_rate_returns_table_period rate count seconds :
  parse_rate (PyStr rate) = Ok (count, seconds) ->
  exists num period,
    split "/" rate = [num; period] /\
    int_literal num = Some count /\
    In (period, seconds) period_table.
Proof.
  intros Hparse.
  destruct (split "/" rate) as [|num [|period [|extra more]]] eqn:Hsplit;
    try (unfold parse_rate, unpack2 in Hparse; rewrite Hsplit in Hparse;
         discriminate Hparse).
  rewrite (parse_rate_tokens _ _ _ Hsplit) in Hparse.
  exists num, period. split; [reflexivity|].
  destruct (int_literal num) as [n|]; [|discriminate Hparse].
  unfold period_seconds, period_table in *.
  destruct (String.eqb_spec period "second") as [->|_];
    [injection Hparse as <- <-; simpl; tauto|].
  destruct (String.eqb_spec period "minute") as [->|_];
    [injection Hparse as <- <-; simpl; tauto|].
  destruct (String.eqb_spec period "hour") as [->|_];
    [injection Hparse as <- <-; simpl; tauto|].
  destruct (String.eqb_spec period "day") as [->|_];
    [injection Hparse as <- <-; simpl; tauto|].
  discriminate Hparse.
Qed.

Lemma parse_rate_returns_table_period_witness :
  exists num period,
    split "/" " +1_000 /day" = [num; period] /\
    int_literal num = Some 1000 /\
    In (period, 86400) period_table.
Proof.
  exact (parse_rate_returns_table_period " +1_000 /day" 1000 86400 eq_refl).
Defined.

(** ** Requests over the limit *)

(** C6, evaluated on the code at inputs where it fails. A request that
    finds a stored window under its cache key, however full, is not
    denied: with a cache client that stores what it is given, the call
    answers [True] and leaves the empty list under the key in place of the
    window. With the module as shipped the eleventh of eleven calls under
    the rate of ten an hour is answered [True] as well. *)
Theorem full_window_request_is_not_denied :
  let request := anonymous "203.0.113.7" in
  let key :=
    CACHE_PREFIX ++ cache_format (PyStr "203.0.113.7") (PyStr "10/hour") in
  (forall (ts : list Q) (now : Q) (σ : Store),
     let before := <[key := (PList ts, 3600)]> σ in
     let outcome :=
       allow_request DEFAULT_THROTTLE_RATES dict_backend init request now
         before in
     outcome.1.1 = Ok true /\ outcome.2 !! key = Some (PList [], 3600))
  /\ last (serve DEFAULT_THROTTLE_RATES no_backend init ∅
             (repeat (request, 0%Q) 11)).1.1
     = Some (Ok true).
Proof.
  intros request key. split.
  - intros ts now σ before outcome. subst outcome.
    rewrite (allow_request_parsed DEFAULT_THROTTLE_RATES dict_backend init
               request now before 10 3600 (PyStr "203.0.113.7")
               eq_refl eq_refl).
    split; [reflexivity|]. cbn [snd dict_backend]. apply lookup_insert_eq.
  - now rewrite (serve_allows_all DEFAULT_THROTTLE_RATES no_backend request
                   0%Q 10 3600 11 init ∅ eq_refl).
Qed.

(** C7, evaluated on the code at the input where it fails: after any
    number of calls of one request on a fresh instance under the shipped
    rates, all of them answered [True], [wait] returns [None] at every
    clock reading, also where the oldest call plus the period still lies
    ahead. *)
Theorem wait_after_requests_is_none cache_instance σ request (t now : Q)
    (n : nat) :
  let served :=
    serve DEFAULT_THROTTLE_RATES cache_instance init σ
      (repeat (request, t) (S n)) in
  served.1.1 = repeat (Ok true) (S n)
  /\ wait served.1.2 now = Ok None.
Proof.
  intros served. subst served. split.
  - destruct (default_rates_parse request) as (L & P & Hparse).
    exact (serve_allows_all DEFAULT_THROTTLE_RATES cache_instance request t
             L P (S n) init σ Hparse).
  - unfold wait. now rewrite serve_keeps_history.
Qed.
